(** * watermarkGo: a shallow embedding of [controller.go]

    The program is one HTTP handler that overlays a bitmap watermark on one
    picture and a text watermark on another, encodes both as base64 JPEG and
    renders them through an HTML template.

    The repository's own functions ([CreateImage], [ApplyToImage],
    [CreateWatermarkedImage], [encodeImageToBase64],
    [handleWatermarkedImages]) are transcribed statement by statement.  What
    they call in Go's standard library is modelled after its documented
    behaviour where a property depends on it ([image.Rectangle],
    [image.NewRGBA], [draw.Draw]/[draw.DrawMask], [base64.StdEncoding],
    [http.ResponseWriter], [http.Error], the signature checks of
    [png.Decode] and [image.Decode]).  What stays opaque (the file system,
    the PNG/JPEG codecs behind their signature checks, [resize.Resize], the
    [gg] text rasteriser, [text/template]) is a field of the record [Env].

    Numbers: Go's [int] is modelled by [Z]; where the code depends on the
    64-bit range (the size check of [image.NewRGBA], the limit of [make],
    the conversions from [float64]) the range is written out; [uint32]
    arithmetic inside the compositor has its wrap-around written out;
    [float64] is IEEE 754 binary64 as specified by [SpecFloat] with
    [prec = 53] and [emax = 1024]. *)

From Stdlib Require Import ZArith List Bool Ascii String Lia ZifyBool Reals Lra.
From Stdlib Require Import SpecFloat.
From stdpp Require Import base list strings gmap.

Local Open Scope Z_scope.

(** [lia] is to reason about division and remainder as well. *)
Ltac Zify.zify_post_hook ::= Z.to_euclidean_division_equations.

(* ===================================================================== *)
(** * float64                                                             *)
(* ===================================================================== *)

Module F64.

Definition prec : Z := 53.
Definition emax : Z := 1024.

Definition float64 : Type := spec_float.

Definition mul : float64 -> float64 -> float64 := SFmul prec emax.
Definition div : float64 -> float64 -> float64 := SFdiv prec emax.
Definition opp : float64 -> float64 := SFopp.
Definition eqb : float64 -> float64 -> bool := SFeqb.

(** [float64(n)] for an integer [n]: rounded to nearest, ties to even. *)
Definition of_Z (n : Z) : float64 := binary_normalize prec emax n 0 false.

(** The integer part of a finite value (truncation toward zero), which is
    what Go's float-to-integer conversion yields when the value fits. *)
Definition trunc (f : float64) : option Z :=
  match f with
  | S754_zero _ => Some 0
  | S754_finite s m e => Some (cond_Zopp s (Z.shiftl (Z.pos m) e))
  | S754_infinity _ | S754_nan => None
  end.

(** The real number a float64 denotes (0 for the non-finite ones, which
    denote none). *)
Definition to_R (f : float64) : R :=
  match f with
  | S754_finite s m e =>
      let v := (IZR (Z.pos m) * powerRZ 2 e)%R in
      if s then (- v)%R else v
  | _ => 0%R
  end.

Definition valid (f : float64) : bool := valid_binary prec emax f.

End F64.

Import F64.

(** The literals of [controller.go]. *)
Definition f_0 : float64 := S754_zero false.
Definition f_1 : float64 := of_Z 1.
Definition f_255 : float64 := of_Z 255.
Definition f_35 : float64 := of_Z 35.
Definition f_180 : float64 := of_Z 180.
(** 0.6 = 0x1.3333333333333p-1 *)
Definition f_0_6 : float64 := S754_finite false 5404319552844595 (-53).
(** -29.5 = -59 * 2^-1, normalised *)
Definition f_m29_5 : float64 := div (of_Z (-59)) (of_Z 2).
(** [3.14 / 180] in [CreateImage] is a constant expression: the Go compiler
    evaluates it exactly, as the rational 157/9000, and rounds once when the
    expression is converted to float64.  The correctly rounded quotient of
    the two exactly representable integers is that value. *)
Definition deg2rad : float64 := div (of_Z 157) (of_Z 9000).

(* ===================================================================== *)
(** * Panics                                                              *)
(* ===================================================================== *)

(** The five failure kinds of the program, by the place where they arise,
    and the run-time panics that the program can reach ([image.NewRGBA] on
    a rectangle of huge or negative size, [make] beyond what the run time
    allocates). *)
Inductive Failure : Type :=
  | ResourceNotFound (path : string)   (* os.Open returned an error         *)
  | DecodeFailure (path : string)      (* png.Decode / image.Decode failed  *)
  | FontLoadFailure (font : string)    (* gg's LoadFontFace failed          *)
  | TemplateLoadFailure                (* template.ParseFiles failed        *)
  | TemplateExecFailure                (* tmpl.Execute failed               *)
  | RuntimePanic (msg : string).

(** A Go call that either returns a value or panics. *)
Inductive Result (A : Type) : Type :=
  | Ok (a : A)
  | Panic (e : Failure).
Arguments Ok {A} a.
Arguments Panic {A} e.

Global Instance Result_bind : MBind Result := fun A B k c =>
  match c with
  | Ok a => k a
  | Panic e => Panic e
  end.

(** [v, err := f(...); if err != nil { panic(err) }] *)
Definition orPanic {A} (o : option A) (e : Failure) : Result A :=
  match o with
  | Some a => Ok a
  | None => Panic e
  end.

(* ===================================================================== *)
(** * Package image: points, rectangles, colours, images                  *)
(* ===================================================================== *)

Record Point : Type := Pt { X : Z; Y : Z }.
Record Rectangle : Type := Rectangle_ { Min : Point; Max : Point }.

(** [image.Point{}] *)
Definition ZP : Point := Pt 0 0.
(** [image.Rectangle{}] *)
Definition ZR : Rectangle := Rectangle_ ZP ZP.

Definition Point_Add (p q : Point) : Point := Pt (X p + X q) (Y p + Y q).
Definition Point_Sub (p q : Point) : Point := Pt (X p - X q) (Y p - Y q).

Definition Dx (r : Rectangle) : Z := X (Max r) - X (Min r).
Definition Dy (r : Rectangle) : Z := Y (Max r) - Y (Min r).

Definition Rect_Add (r : Rectangle) (p : Point) : Rectangle :=
  Rectangle_ (Point_Add (Min r) p) (Point_Add (Max r) p).

Definition Empty (r : Rectangle) : bool :=
  (X (Max r) <=? X (Min r)) || (Y (Max r) <=? Y (Min r)).

(** [Rectangle.Intersect] *)
Definition Intersect (r s : Rectangle) : Rectangle :=
  let x0 := if X (Min r) <? X (Min s) then X (Min s) else X (Min r) in
  let y0 := if Y (Min r) <? Y (Min s) then Y (Min s) else Y (Min r) in
  let x1 := if X (Max s) <? X (Max r) then X (Max s) else X (Max r) in
  let y1 := if Y (Max s) <? Y (Max r) then Y (Max s) else Y (Max r) in
  let r' := Rectangle_ (Pt x0 y0) (Pt x1 y1) in
  if Empty r' then ZR else r'.

(** [Point.In]: [Min.X <= x < Max.X] and likewise for y. *)
Definition Point_In (x y : Z) (r : Rectangle) : bool :=
  (X (Min r) <=? x) && (x <? X (Max r)) && (Y (Min r) <=? y) && (y <? Y (Max r)).

(** [image.Rect(x0, y0, x1, y1)]: the corners are swapped where needed. *)
Definition Rect_ (x0 y0 x1 y1 : Z) : Rectangle :=
  let '(x0, x1) := if x1 <? x0 then (x1, x0) else (x0, x1) in
  let '(y0, y1) := if y1 <? y0 then (y1, y0) else (y0, y1) in
  Rectangle_ (Pt x0 y0) (Pt x1 y1).

(** A rectangle is well formed when [Min.X <= Max.X] and [Min.Y <= Max.Y]
    (Go's documentation of [image.Rectangle]). *)
Definition Rectangle_wf (r : Rectangle) : Prop :=
  X (Min r) <= X (Max r) /\ Y (Min r) <= Y (Max r).

(** A colour, as the [color.Color] interface shows it: the four values of
    [RGBA()], alpha-premultiplied, each a [uint32] that the interface
    promises to lie in [0, 0xffff]. *)
Record color_Color : Type := Color_ { cR : Z; cG : Z; cB : Z; cA : Z }.

Definition Color_wf (c : color_Color) : Prop :=
  0 <= cR c <= 65535 /\ 0 <= cG c <= 65535 /\
  0 <= cB c <= 65535 /\ 0 <= cA c <= 65535.

(** [color.RGBA{r, g, b, a}.RGBA()]: each 8-bit channel [v] becomes
    [v | v<<8]. *)
Definition color_RGBA (r g b a : Z) : color_Color :=
  Color_ (r * 257) (g * 257) (b * 257) (a * 257).

(** [color.Alpha{a}.RGBA()] *)
Definition color_Alpha (a : Z) : color_Color :=
  Color_ (a * 257) (a * 257) (a * 257) (a * 257).

(** The [image.Image] interface: [Bounds()] and [At(x, y).RGBA()]. *)
Record Image : Type := Image_ { Bounds : Rectangle; At : Z -> Z -> color_Color }.

Definition Image_wf (img : Image) : Prop :=
  Rectangle_wf (Bounds img) /\ forall x y, Color_wf (At img x y).

(** [&image.Uniform{c}]: one colour everywhere, within bounds that are
    practically infinite. *)
Definition Uniform (c : color_Color) : Image :=
  Image_ (Rectangle_ (Pt (-1000000000) (-1000000000))
                     (Pt 1000000000 1000000000))
         (fun _ _ => c).

(** [image.RGBA]: [Pix] holds the pixels in R, G, B, A order, row after
    row; the pixel at (x, y) starts at [PixOffset x y]. *)
Record RGBA : Type := RGBA_ { Pix : list Z; Stride : Z; Rect : Rectangle }.

Definition PixOffset (p : RGBA) (x y : Z) : Z :=
  (y - Y (Min (Rect p))) * Stride p + (x - X (Min (Rect p))) * 4.

(** [bits.Mul64(x, y)]: the high and the low 64 bits of the product. *)
Definition Mul64 (x y : Z) : Z * Z := ((x * y) / 2 ^ 64, (x * y) mod 2 ^ 64).

(** [int(u)] for a [uint64]. *)
Definition int_of_uint64 (u : Z) : Z := if u <? 2 ^ 63 then u else u - 2 ^ 64.

(** [mul3NonNeg(x, y, z)] of package image: the product, or [-1] when an
    argument is negative or the product overflows [int]. *)
Definition mul3NonNeg (x y z : Z) : Z :=
  if (x <? 0) || (y <? 0) || (z <? 0) then -1
  else
    let '(hi, lo) := Mul64 x y in
    if negb (hi =? 0) then -1
    else
      let '(hi, lo) := Mul64 lo z in
      if negb (hi =? 0) then -1
      else
        let a := int_of_uint64 lo in
        if a <? 0 then -1 else a.

(** The most the Go run time allocates at once ([maxAlloc] of package
    runtime where addresses have 48 bits, as on amd64 and arm64). *)
Definition maxAlloc : Z := 2 ^ 48.

(** [make([]uint8, n)]: [n] zero bytes; a length that is negative or
    beyond [maxAlloc] is a run-time panic. *)
Definition make_bytes (n : Z) : Result (list Z) :=
  if (n <? 0) || (maxAlloc <? n)
  then Panic (RuntimePanic "runtime error: makeslice: len out of range")
  else Ok (replicate (Z.to_nat n) 0).

(** [image.NewRGBA r]: a zeroed buffer of [4 * Dx * Dy] bytes.  The length
    is computed by [pixelBufferLength], which panics when a dimension is
    negative or the length overflows [int]; the buffer is then made. *)
Definition NewRGBA (r : Rectangle) : Result RGBA :=
  let totalLength := mul3NonNeg 4 (Dx r) (Dy r) in
  if totalLength <? 0
  then Panic (RuntimePanic "image: NewRGBA Rectangle has huge or negative dimensions")
  else
    pix ← make_bytes totalLength;
    Ok (RGBA_ pix (4 * Dx r) r).

(** [p.Pix[i]] *)
Definition byte_at (pix : list Z) (i : Z) : Z := default 0 (pix !! Z.to_nat i).

(** The four bytes of the pixel that starts at offset [i]. *)
Definition pixel_at (pix : list Z) (i : Z) : Z * Z * Z * Z :=
  (byte_at pix i, byte_at pix (i + 1), byte_at pix (i + 2), byte_at pix (i + 3)).

Definition set_pixel (pix : list Z) (i : Z) (c : Z * Z * Z * Z) : list Z :=
  let '(r, g, b, a) := c in
  <[Z.to_nat (i + 3) := a]>
    (<[Z.to_nat (i + 2) := b]>
       (<[Z.to_nat (i + 1) := g]>
          (<[Z.to_nat i := r]> pix))).

(** The bytes of the pixel (x, y) of an [image.RGBA]. *)
Definition RGBA_pixel (p : RGBA) (x y : Z) : Z * Z * Z * Z :=
  pixel_at (Pix p) (PixOffset p x y).

(** [At(x, y).RGBA()] of an [image.RGBA]: the zero colour outside [Rect]. *)
Definition RGBA_At (p : RGBA) (x y : Z) : color_Color :=
  if Point_In x y (Rect p)
  then let '(r, g, b, a) := RGBA_pixel p x y in color_RGBA r g b a
  else Color_ 0 0 0 0.

(** An [image.RGBA] seen through the [image.Image] interface. *)
Definition Image_of_RGBA (p : RGBA) : Image := Image_ (Rect p) (RGBA_At p).

(* ===================================================================== *)
(** * Package image/draw: [Draw] and [DrawMask] with [draw.Over]          *)
(* ===================================================================== *)

Definition u8 (z : Z) : Z := z mod 256.
Definition u32 (z : Z) : Z := z mod 4294967296.

(** [m = 1<<16 - 1] *)
Definition m16 : Z := 65535.

(** One channel of [drawRGBA] under [Over], in [uint32] arithmetic:
    [a := (m - (sa * ma / m)) * 0x101] and
    [d = uint8((d*a + s*ma) / m >> 8)]. *)
Definition over_alpha (sa ma : Z) : Z :=
  u32 (u32 (m16 - u32 (sa * ma) / m16) * 257).

Definition over_channel (d s a ma : Z) : Z :=
  u8 (Z.shiftr (u32 (u32 (d * a) + u32 (s * ma)) / m16) 8).

Definition over_pixel (d : Z * Z * Z * Z) (s : color_Color) (ma : Z) : Z * Z * Z * Z :=
  let '(dr, dg, db, da) := d in
  let a := over_alpha (cA s) ma in
  (over_channel dr (cR s) a ma, over_channel dg (cG s) a ma,
   over_channel db (cB s) a ma, over_channel da (cA s) a ma).

(** [clip]: the rectangle is cut down to the destination, the source and
    the mask; the source and mask points move along with its corner. *)
Definition clip (dstB r srcB : Rectangle) (sp : Point)
    (maskB : option Rectangle) (mp : Point) : Rectangle * Point * Point :=
  let orig := Min r in
  let r := Intersect r dstB in
  let r := Intersect r (Rect_Add srcB (Point_Sub orig sp)) in
  let r := match maskB with
           | Some mB => Intersect r (Rect_Add mB (Point_Sub orig mp))
           | None => r
           end in
  let dx := X (Min r) - X orig in
  let dy := Y (Min r) - Y orig in
  if (dx =? 0) && (dy =? 0) then (r, sp, mp)
  else (r, Pt (X sp + dx) (Y sp + dy), Pt (X mp + dx) (Y mp + dy)).

(** The body of the two loops of [drawRGBA] at the destination pixel
    (x, y): the mask's alpha, the source colour and the four destination
    bytes are read, and the four bytes are written back. *)
Definition drawRGBA_pixel (r : Rectangle) (src : Image) (sp : Point)
    (mask : option Image) (mp : Point) (dst : RGBA) (x y : Z) : RGBA :=
  let sx := X sp + x - X (Min r) in
  let sy := Y sp + y - Y (Min r) in
  let mx := X mp + x - X (Min r) in
  let my := Y mp + y - Y (Min r) in
  let ma := match mask with
            | Some mk => cA (At mk mx my)
            | None => m16
            end in
  let s := At src sx sy in
  let i := PixOffset dst x y in
  RGBA_ (set_pixel (Pix dst) i (over_pixel (pixel_at (Pix dst) i) s ma))
        (Stride dst) (Rect dst).

(** [drawRGBA]: rows from [r.Min.Y] to [r.Max.Y], and in each row the
    pixels from [r.Min.X] to [r.Max.X]. *)
Definition drawRGBA (dst : RGBA) (r : Rectangle) (src : Image) (sp : Point)
    (mask : option Image) (mp : Point) : RGBA :=
  foldl (fun d y =>
           foldl (fun d x => drawRGBA_pixel r src sp mask mp d x y)
                 d (seqZ (X (Min r)) (Dx r)))
        dst (seqZ (Y (Min r)) (Dy r)).

(** [draw.DrawMask(dst, r, src, sp, mask, mp, draw.Over)] for a destination
    of type [image.RGBA].  The library has shortcuts for some source
    types; they store the same bytes as the general loop modelled here. *)
Definition DrawMask (dst : RGBA) (r : Rectangle) (src : Image) (sp : Point)
    (mask : option Image) (mp : Point) : RGBA :=
  let '(r, sp, mp) :=
    clip (Rect dst) r (Bounds src) sp (option_map Bounds mask) mp in
  if Empty r then dst else drawRGBA dst r src sp mask mp.

(** [draw.Draw(dst, r, src, sp, draw.Over)] is [DrawMask] with a nil mask. *)
Definition Draw (dst : RGBA) (r : Rectangle) (src : Image) (sp : Point) : RGBA :=
  DrawMask dst r src sp None ZP.

(* ===================================================================== *)
(** * Package encoding/base64                                             *)
(* ===================================================================== *)

Definition encodeStd : list ascii :=
  list_ascii_of_string
    "ABCDEFGHIJKLMNOPQRSTUVWXYZabcdefghijklmnopqrstuvwxyz0123456789+/".

Definition b64 (v : Z) : ascii :=
  nth (Z.to_nat (Z.land v 63)) encodeStd "="%char.

(** [base64.StdEncoding.EncodeToString]: three bytes become four characters;
    a remainder of one or two bytes is padded with ['=']. *)
Fixpoint EncodeToString (src : list Z) : string :=
  match src with
  | [] => ""
  | [a] =>
      let v := Z.shiftl a 16 in
      String (b64 (Z.shiftr v 18)) (String (b64 (Z.shiftr v 12)) "==")
  | [a; b] =>
      let v := Z.lor (Z.shiftl a 16) (Z.shiftl b 8) in
      String (b64 (Z.shiftr v 18))
        (String (b64 (Z.shiftr v 12)) (String (b64 (Z.shiftr v 6)) "="))
  | a :: b :: c :: rest =>
      let v := Z.lor (Z.lor (Z.shiftl a 16) (Z.shiftl b 8)) c in
      String (b64 (Z.shiftr v 18))
        (String (b64 (Z.shiftr v 12))
           (String (b64 (Z.shiftr v 6))
              (String (b64 v) (EncodeToString rest))))
  end.

(* ===================================================================== *)
(** * Package net/http: the response writer                               *)
(* ===================================================================== *)

(** The header map that the handler can still change, the status line and
    headers once they are sent, and the body written so far. *)
Record ResponseWriter : Type := ResponseWriter_ {
  Header : gmap string string;
  sent : option (Z * gmap string string);
  body : string
}.

Definition newResponse : ResponseWriter := ResponseWriter_ ∅ None "".

Definition Header_Set (k v : string) (w : ResponseWriter) : ResponseWriter :=
  ResponseWriter_ (<[k := v]> (Header w)) (sent w) (body w).

Definition Header_Del (k : string) (w : ResponseWriter) : ResponseWriter :=
  ResponseWriter_ (delete k (Header w)) (sent w) (body w).

(** [w.WriteHeader(code)]: the first call sends the status line with the
    headers as they are then; a later call is ignored (the server logs it
    as superfluous). *)
Definition WriteHeader (code : Z) (w : ResponseWriter) : ResponseWriter :=
  match sent w with
  | Some _ => w
  | None => ResponseWriter_ (Header w) (Some (code, Header w)) (body w)
  end.

(** [w.Write(data)]: sends [200 OK] first when no status was sent yet. *)
Definition Write (data : string) (w : ResponseWriter) : ResponseWriter :=
  let w := WriteHeader 200 w in
  ResponseWriter_ (Header w) (sent w) (body w +:+ data).

Definition StatusInternalServerError : Z := 500.

(** [http.Error(w, msg, code)] *)
Definition http_Error (w : ResponseWriter) (msg : string) (code : Z) : ResponseWriter :=
  let w := Header_Del "Content-Length" w in
  let w := Header_Set "Content-Type" "text/plain; charset=utf-8" w in
  let w := Header_Set "X-Content-Type-Options" "nosniff" w in
  let w := WriteHeader code w in
  Write (msg +:+ String "010"%char "") w.

(** The status the client receives: the one sent, or [200] when the handler
    returned without writing. *)
Definition status (w : ResponseWriter) : Z :=
  match sent w with
  | Some (code, _) => code
  | None => 200
  end.

(* ===================================================================== *)
(** * What the program takes from its environment                         *)
(* ===================================================================== *)

(** [resize.InterpolationFunction] *)
Inductive InterpolationFunction : Type :=
  | NearestNeighbor | Bilinear | Bicubic | MitchellNetravali | Lanczos2 | Lanczos3.

Record Env : Type := Env_ {
  (** [os.Open] followed by reading the file: its bytes, or [None] when it
      cannot be opened. *)
  os_Open : string -> option (list Z);
  (** The PNG decoder proper, once the signature was accepted. *)
  png_decode_chunks : list Z -> option Image;
  (** [jpeg.Decode] *)
  jpeg_Decode : list Z -> option Image;
  (** [jpeg.Encode(buff, img, nil)] and [png.Encode(buff, img)]: the bytes
      written to the buffer, and whether the returned error is non-nil. *)
  jpeg_Encode : Image -> list Z * bool;
  png_Encode : Image -> list Z * bool;
  (** [resize.Resize(width, height, img, interp)] *)
  resize_Resize : Z -> Z -> Image -> InterpolationFunction -> Image;
  (** [dc.LoadFontFace(path, points)]: [None] for an error. *)
  FontFace : Type;
  gg_LoadFontFace : string -> float64 -> option FontFace;
  (** The canvas of [gg.NewContext(w, h)], cleared to transparent, after
      [SetColor(c)], [RotateAbout(angle, cx, cy)] and
      [DrawStringAnchored(text, x, y, ax, ay)] with the loaded face; or the
      message of a run-time panic inside [gg]. *)
  gg_DrawStringAnchored :
    Z -> Z -> option color_Color -> FontFace -> float64 -> float64 -> float64 ->
    string -> float64 -> float64 -> float64 -> float64 -> Image + string;
  (** [template.ParseFiles(path)]: [None] for an error. *)
  Template : Type;
  template_ParseFiles : string -> option Template;
  (** [tmpl.Execute(w, data)]: the chunks written to [w], in order, and
      whether the returned error is non-nil. *)
  template_Execute : Template -> string -> string -> list string * bool;
  (** The result of converting a float64 that the integer type cannot
      represent (Go leaves it to the implementation). *)
  float_conv_unspecified : float64 -> Z
}.

(** [uint8(f)], [uint(f)]: the integer part when it fits. *)
Definition float_to_uint (env : Env) (bits : Z) (f : float64) : Z :=
  match trunc f with
  | Some z =>
      if (0 <=? z) && (z <? 2 ^ bits) then z
      else float_conv_unspecified env f mod 2 ^ bits
  | None => float_conv_unspecified env f mod 2 ^ bits
  end.

(** [int(f)] *)
Definition float_to_int (env : Env) (f : float64) : Z :=
  match trunc f with
  | Some z =>
      if (- 2 ^ 63 <=? z) && (z <? 2 ^ 63) then z
      else float_conv_unspecified env f
  | None => float_conv_unspecified env f
  end.

Fixpoint has_prefix (magic data : list Z) : bool :=
  match magic, data with
  | [], _ => true
  | b :: magic', d :: data' => (b =? d) && has_prefix magic' data'
  | _ :: _, [] => false
  end.

(** The eight bytes every PNG file starts with, and the two of JPEG. *)
Definition pngHeader : list Z := [137; 80; 78; 71; 13; 10; 26; 10].
Definition jpegMagic : list Z := [255; 216].

(** [png.Decode]: the signature is checked first; anything else is
    rejected ("not a PNG file"). *)
Definition png_Decode (env : Env) (data : list Z) : option Image :=
  if has_prefix pngHeader data then png_decode_chunks env data else None.

(** [image.Decode]: the registered formats (here those of the imported
    packages image/jpeg and image/png) are tried by their magic prefix. *)
Definition image_Decode (env : Env) (data : list Z) : option Image :=
  if has_prefix jpegMagic data then jpeg_Decode env data
  else if has_prefix pngHeader data then png_Decode env data
  else None.

(* ===================================================================== *)
(** * controller.go                                                       *)
(* ===================================================================== *)

(** [BaseWatermark]: [Color] is an interface value and may be nil. *)
Record BaseWatermark : Type := BaseWatermark_ {
  Opacity : float64;
  Color : option color_Color;
  Font : string;
  Size : float64;
  Rotate : float64
}.

(** [Watermark] embeds [BaseWatermark]. *)
Record Watermark : Type := Watermark_ {
  Watermark_Base : BaseWatermark;
  Path : string;
  Scale : float64
}.

(** [TextWatermark] embeds [BaseWatermark]. *)
Record TextWatermark : Type := TextWatermark_ {
  TextWatermark_Base : BaseWatermark;
  Text : string
}.

(** [angle := -t.Rotate * (3.14 / 180)] *)
Definition CreateImage_angle (t : TextWatermark) : float64 :=
  mul (opp (Rotate (TextWatermark_Base t))) deg2rad.

Definition f_2 : float64 := of_Z 2.
(** 0.5 *)
Definition f_0_5 : float64 := div f_1 f_2.

(** The rectangle of the canvas of [gg.NewContext(int(width), int(height))],
    which is [image.Rect(0, 0, w, h)]. *)
Definition canvasBounds (env : Env) (width height : float64) : Rectangle :=
  Rect_ 0 0 (float_to_int env width) (float_to_int env height).

(** A library call that returns a value or panics at run time. *)
Definition orRuntimePanic {A} (r : A + string) : Result A :=
  match r with
  | inl a => Ok a
  | inr msg => Panic (RuntimePanic msg)
  end.

(** [func (t *TextWatermark) CreateImage(width, height float64) image.Image].
    [gg.NewContext] allocates its canvas with [image.NewRGBA] before
    anything else is done. *)
Definition CreateImage (env : Env) (t : TextWatermark) (width height : float64)
    : Result Image :=
  let b := TextWatermark_Base t in
  dc ← NewRGBA (canvasBounds env width height);
  face ← orPanic (gg_LoadFontFace env (Font b) (Size b)) (FontLoadFailure (Font b));
  let angle := CreateImage_angle t in
  orRuntimePanic
    (gg_DrawStringAnchored env
       (float_to_int env width) (float_to_int env height)
       (Color b) face
       angle (div width f_2) (div height f_2)
       (Text t) (div width f_2) (div height f_2) f_0_5 f_0_5).

(** [func (w *Watermark) ApplyToImage(baseImage image.Image) image.Image] *)
Definition ApplyToImage (env : Env) (w : Watermark) (baseImage : Image)
    : Result RGBA :=
  let bounds := Bounds baseImage in
  result ← NewRGBA bounds;
  let result := Draw result bounds baseImage ZP in
  if negb (String.eqb (Path w) "") then
    watermarkFile ← orPanic (os_Open env (Path w)) (ResourceNotFound (Path w));
    watermarkImage ← orPanic (png_Decode env watermarkFile) (DecodeFailure (Path w));
    let watermarkImage :=
      if negb (eqb (Scale w) f_1) then
        let bounds := Bounds watermarkImage in
        let newWidth := float_to_uint env 64 (mul (of_Z (Dx bounds)) (Scale w)) in
        let newHeight := float_to_uint env 64 (mul (of_Z (Dy bounds)) (Scale w)) in
        resize_Resize env newWidth newHeight watermarkImage Bilinear
      else watermarkImage in
    let offset :=
      Pt (Z.quot (Dx bounds - Dx (Bounds watermarkImage)) 2)
         (Z.quot (Dy bounds - Dy (Bounds watermarkImage)) 2) in
    Ok (Draw result (Rect_Add (Bounds watermarkImage) offset) watermarkImage ZP)
  else Ok result.

(** [func (w *TextWatermark) CreateWatermarkedImage(baseImage image.Image) image.Image] *)
Definition CreateWatermarkedImage (env : Env) (w : TextWatermark) (baseImage : Image)
    : Result RGBA :=
  textImage ← CreateImage env w (of_Z (Dx (Bounds baseImage)))
                                (of_Z (Dy (Bounds baseImage)));
  result ← NewRGBA (Bounds baseImage);
  let result := Draw result (Bounds baseImage) baseImage ZP in
  let alpha := float_to_uint env 8 (mul f_255 (Opacity (TextWatermark_Base w))) in
  Ok (DrawMask result (Rect result) textImage ZP
        (Some (Uniform (color_Alpha alpha))) ZP).

(** [func encodeImageToBase64(img image.Image, imgType string) string]:
    the errors of the two encoders are dropped. *)
Definition encodeImageToBase64 (env : Env) (img : Image) (imgType : string) : string :=
  let buff : list Z := [] in
  let buff :=
    if String.eqb imgType "jpeg" then buff ++ fst (jpeg_Encode env img)
    else if String.eqb imgType "png" then buff ++ fst (png_Encode env img)
    else buff in
  EncodeToString buff.

(** The text of the demo watermark, in UTF-8. *)
Definition demoText : string := "пятаяпередача.рф".

(** [func handleWatermarkedImages(w http.ResponseWriter, r *http.Request)]:
    [Ok w'] when the handler returns, with the response written so far. *)
Definition handleWatermarkedImages (env : Env) (w : ResponseWriter)
    : Result ResponseWriter :=
  let imageWatermark :=
    Watermark_ (BaseWatermark_ f_0_6 None "" f_0 f_0) "FG-copyright-mini.png" f_1 in
  srcImgFile1 ← orPanic (os_Open env "image.jpg") (ResourceNotFound "image.jpg");
  baseImage1 ← orPanic (image_Decode env srcImgFile1) (DecodeFailure "image.jpg");
  watermarkedImage1 ← ApplyToImage env imageWatermark baseImage1;
  let textWatermark :=
    TextWatermark_
      (BaseWatermark_ f_0_6 (Some (color_RGBA 239 250 23 255))
                      "Nunito-Medium.ttf" f_35 f_m29_5)
      demoText in
  srcImgFile2 ← orPanic (os_Open env "zerkalo-ozera.jpg")
                        (ResourceNotFound "zerkalo-ozera.jpg");
  baseImage2 ← orPanic (image_Decode env srcImgFile2) (DecodeFailure "zerkalo-ozera.jpg");
  watermarkedImage2 ← CreateWatermarkedImage env textWatermark baseImage2;
  let imageWithWatermarkBase64_1 :=
    encodeImageToBase64 env (Image_of_RGBA watermarkedImage1) "jpeg" in
  let imageWithWatermarkBase64_2 :=
    encodeImageToBase64 env (Image_of_RGBA watermarkedImage2) "jpeg" in
  match template_ParseFiles env "templates/images.html" with
  | None => Ok (http_Error w "Error loading template" StatusInternalServerError)
  | Some tmpl =>
      let w := Header_Set "Content-Type" "text/html; charset=utf-8" w in
      let '(chunks, err) :=
        template_Execute env tmpl imageWithWatermarkBase64_1 imageWithWatermarkBase64_2 in
      let w := foldl (fun w chunk => Write chunk w) w chunks in
      if err
      then Ok (http_Error w "Error executing template" StatusInternalServerError)
      else Ok w
  end.

(* ===================================================================== *)
(** * Notions used in the statements                                      *)
(* ===================================================================== *)

Definition is_byte (b : Z) : Prop := 0 <= b < 256.

(** The rectangles for which [image.NewRGBA] returns a buffer: no negative
    dimension, [4 * Dx] within 64 bits, and a length that [make] accepts. *)
Definition allocatable (r : Rectangle) : Prop :=
  0 <= Dx r < 2 ^ 62 /\ 0 <= Dy r /\ 4 * Dx r * Dy r <= maxAlloc.

Record RGBA_wf (p : RGBA) : Prop := {
  wf_Rect : Rectangle_wf (Rect p);
  wf_Stride : Stride p = 4 * Dx (Rect p);
  wf_length : Z.of_nat (length (Pix p)) = 4 * Dx (Rect p) * Dy (Rect p);
  wf_bytes : Forall is_byte (Pix p)
}.

(** The pixel that one step of the loop stores at (x, y). *)
Definition blend (r : Rectangle) (src : Image) (sp : Point)
    (mask : option Image) (mp : Point) (dst : RGBA) (x y : Z) : Z * Z * Z * Z :=
  over_pixel (RGBA_pixel dst x y)
    (At src (X sp + x - X (Min r)) (Y sp + y - Y (Min r)))
    (match mask with
     | Some mk => cA (At mk (X mp + x - X (Min r)) (Y mp + y - Y (Min r)))
     | None => m16
     end).

(** Where [DrawMask] writes: inside the rectangle asked for, the
    destination, and the source and mask placed so that [sp] and [mp] meet
    the rectangle's corner. *)
Definition drawn (dst : RGBA) (r : Rectangle) (src : Image) (sp : Point)
    (mask : option Image) (mp : Point) (x y : Z) : bool :=
  Point_In x y r && Point_In x y (Rect dst)
  && Point_In x y (Rect_Add (Bounds src) (Point_Sub (Min r) sp))
  && match mask with
     | Some mk => Point_In x y (Rect_Add (Bounds mk) (Point_Sub (Min r) mp))
     | None => true
     end.

(** [color.RGBAModel.Convert]: the four bytes an [image.RGBA] stores for a
    colour. *)
Definition RGBAModel (c : color_Color) : Z * Z * Z * Z :=
  (Z.shiftr (cR c) 8, Z.shiftr (cG c) 8, Z.shiftr (cB c) 8, Z.shiftr (cA c) 8).

(** [p] is a copy of [img]: same rectangle, rows packed without gaps,
    and every pixel of [p] holds the bytes of the pixel of [img] at the
    same place. *)
Definition RGBA_copy_of (p : RGBA) (img : Image) : Prop :=
  Rect p = Bounds img /\
  Stride p = 4 * Dx (Bounds img) /\
  Z.of_nat (length (Pix p)) = 4 * Dx (Bounds img) * Dy (Bounds img) /\
  forall x y, Point_In x y (Bounds img) = true ->
    RGBA_pixel p x y = RGBAModel (At img x y).

(** Lines 60-62 and 98-99: a new buffer with the base image drawn into it. *)
Definition copyBase (baseImage : Image) : Result RGBA :=
  result ← NewRGBA (Bounds baseImage);
  Ok (Draw result (Bounds baseImage) baseImage ZP).

(** The buffer [buff] of [encodeImageToBase64] after the [switch]. *)
Definition encodeBuffer (env : Env) (img : Image) (imgType : string) : list Z :=
  if String.eqb imgType "jpeg" then fst (jpeg_Encode env img)
  else if String.eqb imgType "png" then fst (png_Encode env img)
  else [].

(** Lines 75-80: the watermark as it is drawn, resized unless the scale
    equals 1. *)
Definition scaledWatermark (env : Env) (w : Watermark) (watermarkImage : Image) : Image :=
  if negb (eqb (Scale w) f_1) then
    resize_Resize env
      (float_to_uint env 64 (mul (of_Z (Dx (Bounds watermarkImage))) (Scale w)))
      (float_to_uint env 64 (mul (of_Z (Dy (Bounds watermarkImage))) (Scale w)))
      watermarkImage Bilinear
  else watermarkImage.

(** Lines 83-86: Go's [/] on [int] truncates toward zero. *)
Definition centerOffset (bounds wmBounds : Rectangle) : Point :=
  Pt (Z.quot (Dx bounds - Dx wmBounds) 2) (Z.quot (Dy bounds - Dy wmBounds) 2).


(** Lines 120-167: the two watermarked pictures as base64 text. *)
Definition watermarkedImages (env : Env) : Result (string * string) :=
  let imageWatermark :=
    Watermark_ (BaseWatermark_ f_0_6 None "" f_0 f_0) "FG-copyright-mini.png" f_1 in
  srcImgFile1 ← orPanic (os_Open env "image.jpg") (ResourceNotFound "image.jpg");
  baseImage1 ← orPanic (image_Decode env srcImgFile1) (DecodeFailure "image.jpg");
  watermarkedImage1 ← ApplyToImage env imageWatermark baseImage1;
  let textWatermark :=
    TextWatermark_
      (BaseWatermark_ f_0_6 (Some (color_RGBA 239 250 23 255))
                      "Nunito-Medium.ttf" f_35 f_m29_5)
      demoText in
  srcImgFile2 ← orPanic (os_Open env "zerkalo-ozera.jpg")
                        (ResourceNotFound "zerkalo-ozera.jpg");
  baseImage2 ← orPanic (image_Decode env srcImgFile2) (DecodeFailure "zerkalo-ozera.jpg");
  watermarkedImage2 ← CreateWatermarkedImage env textWatermark baseImage2;
  Ok (encodeImageToBase64 env (Image_of_RGBA watermarkedImage1) "jpeg",
      encodeImageToBase64 env (Image_of_RGBA watermarkedImage2) "jpeg").

(** Lines 170-189: the template is loaded and executed. *)
Definition renderTemplate (env : Env) (w : ResponseWriter) (images : string * string)
    : ResponseWriter :=
  match template_ParseFiles env "templates/images.html" with
  | None => http_Error w "Error loading template" StatusInternalServerError
  | Some tmpl =>
      let w := Header_Set "Content-Type" "text/html; charset=utf-8" w in
      let '(chunks, err) := template_Execute env tmpl (fst images) (snd images) in
      let w := foldl (fun w chunk => Write chunk w) w chunks in
      if err
      then http_Error w "Error executing template" StatusInternalServerError
      else w
  end.

(** Lines 121-127: the graphical watermark of the handler. *)
Definition imageWatermark : Watermark :=
  Watermark_ (BaseWatermark_ f_0_6 None "" f_0 f_0) "FG-copyright-mini.png" f_1.

(** The failures that reach the caller of the handler as a panic. *)
Definition propagates (e : Failure) : bool :=
  match e with
  | TemplateLoadFailure | TemplateExecFailure => false
  | _ => true
  end.

Definition newline : string := String "010"%char "".

(** The alpha byte of a stored pixel. *)
Definition pixel_alpha (p : Z * Z * Z * Z) : Z := let '(_, _, _, a) := p in a.

(** Line 102: [uint8(255 * w.Opacity)], the alpha of the uniform mask. *)
Definition maskAlpha (env : Env) (w : TextWatermark) : Z :=
  float_to_uint env 8 (mul f_255 (Opacity (TextWatermark_Base w))).

(** An image without transparency. *)
Definition opaque (img : Image) : Prop := forall x y, cA (At img x y) = 65535.

(** The sign bit of a float64 ([true] for negative); NaN has none. *)
Definition signbit (f : float64) : option bool :=
  match f with
  | S754_zero s | S754_infinity s | S754_finite s _ _ => Some s
  | S754_nan => None
  end.

(** The same environment with another [jpeg.Encode]. *)
Definition with_jpeg_Encode (env : Env) (f : Image -> list Z * bool) : Env := {|
  os_Open := os_Open env;
  png_decode_chunks := png_decode_chunks env;
  jpeg_Decode := jpeg_Decode env;
  jpeg_Encode := f;
  png_Encode := png_Encode env;
  resize_Resize := resize_Resize env;
  FontFace := FontFace env;
  gg_LoadFontFace := gg_LoadFontFace env;
  gg_DrawStringAnchored := gg_DrawStringAnchored env;
  Template := Template env;
  template_ParseFiles := template_ParseFiles env;
  template_Execute := template_Execute env;
  float_conv_unspecified := float_conv_unspecified env
|}.

(** All the chunks written, in order. *)
Definition concatChunks (chunks : list string) : string :=
  fold_right String.append "" chunks.

(** The characters base64 text is made of: the 64 of the alphabet and the
    padding ['=']. *)
Definition b64_safe (c : ascii) : bool :=
  existsb (Ascii.eqb c) encodeStd || Ascii.eqb c "="%char.

(** The place of a character in the alphabet. *)
Fixpoint index_of (c : ascii) (l : list ascii) (i : Z) : option Z :=
  match l with
  | [] => None
  | x :: l' => if Ascii.eqb c x then Some i else index_of c l' (i + 1)
  end.

Definition b64_index (c : ascii) : option Z := index_of c encodeStd 0.

(** Reading base64 text back, four characters at a time (the inverse of
    [EncodeToString], by which the latter is shown to lose nothing). *)
Fixpoint DecodeString (s : string) : option (list Z) :=
  match s with
  | "" => Some []
  | String c1 (String c2 (String c3 (String c4 rest))) =>
      match b64_index c1, b64_index c2 with
      | Some i1, Some i2 =>
          if Ascii.eqb c3 "="%char then
            if Ascii.eqb c4 "="%char && String.eqb rest ""
            then Some [(i1 * 262144 + i2 * 4096) / 65536]
            else None
          else
            match b64_index c3 with
            | Some i3 =>
                let v := i1 * 262144 + i2 * 4096 + i3 * 64 in
                if Ascii.eqb c4 "="%char then
                  if String.eqb rest ""
                  then Some [v / 65536; (v / 256) mod 256]
                  else None
                else
                  match b64_index c4, DecodeString rest with
                  | Some i4, Some l =>
                      let v := v + i4 in
                      Some (v / 65536 :: (v / 256) mod 256 :: v mod 256 :: l)
                  | _, _ => None
                  end
            | None => None
            end
      | _, _ => None
      end
  | _ => None
  end.

(** A predicate that holds of every character of a string. *)
Fixpoint string_forall (P : ascii -> bool) (s : string) : bool :=
  match s with
  | "" => true
  | String c s' => P c && string_forall P s'
  end.

(* ===================================================================== *)
(** * Sample inputs                                                       *)
(* ===================================================================== *)

Definition rotate180 : TextWatermark :=
  TextWatermark_ (BaseWatermark_ f_0 None "" f_0 f_180) "".

(** The text watermark of the handler: rotation -29.5 degrees. *)
Definition demoTextWatermark : TextWatermark :=
  TextWatermark_
    (BaseWatermark_ f_0_6 (Some (color_RGBA 239 250 23 255))
                    "Nunito-Medium.ttf" f_35 f_m29_5)
    demoText.

(** An image of one colour. *)
Definition plain (r : Rectangle) (c : color_Color) : Image := Image_ r (fun _ _ => c).

Definition red : color_Color := color_RGBA 255 0 0 255.
Definition blue : color_Color := color_RGBA 0 0 255 255.
Definition transparent : color_Color := color_RGBA 0 0 0 0.

(** A file that starts like a PNG file, and one that starts like a JPEG. *)
Definition pngFile : list Z := pngHeader ++ [0; 0; 0; 13].
Definition jpegFile : list Z := jpegMagic ++ [255; 224].

(** An environment in which no file exists and every library call fails. *)
Definition bareEnv : Env := {|
  os_Open := fun _ => None;
  png_decode_chunks := fun _ => None;
  jpeg_Decode := fun _ => None;
  jpeg_Encode := fun _ => ([], true);
  png_Encode := fun _ => ([], true);
  resize_Resize := fun _ _ img _ => img;
  FontFace := unit;
  gg_LoadFontFace := fun _ _ => None;
  gg_DrawStringAnchored :=
    fun w h _ _ _ _ _ _ _ _ _ _ => inl (plain (Rect_ 0 0 w h) transparent);
  Template := unit;
  template_ParseFiles := fun _ => None;
  template_Execute := fun _ _ _ => ([], true);
  float_conv_unspecified := fun _ => 0
|}.

(** An environment in which every call succeeds.  The files are those of
    [files]; PNG data decodes to a 2x2 blue image and JPEG data to a 4x4 red
    one; the text layer is opaque blue; each encoder writes three bytes; the
    template writes the two strings it is given. *)
Definition demoEnv (files : string -> option (list Z)) : Env := {|
  os_Open := files;
  png_decode_chunks := fun _ => Some (plain (Rect_ 0 0 2 2) blue);
  jpeg_Decode := fun _ => Some (plain (Rect_ 0 0 4 4) red);
  jpeg_Encode := fun _ => ([255; 216; 255], false);
  png_Encode := fun _ => ([137; 80; 78], false);
  resize_Resize := fun w h _ _ => plain (Rect_ 0 0 w h) blue;
  FontFace := unit;
  gg_LoadFontFace := fun _ _ => Some tt;
  gg_DrawStringAnchored := fun w h _ _ _ _ _ _ _ _ _ _ => inl (plain (Rect_ 0 0 w h) blue);
  Template := unit;
  template_ParseFiles := fun _ => Some tt;
  template_Execute := fun _ s1 s2 => ([s1; s2], false);
  float_conv_unspecified := fun _ => 0
|}.

Definition demoFiles (path : string) : option (list Z) :=
  if String.eqb path "FG-copyright-mini.png" then Some pngFile else Some jpegFile.

Definition style0 : BaseWatermark := BaseWatermark_ f_0 None "" f_0 f_0.
Definition style1 : BaseWatermark :=
  BaseWatermark_ f_0_6 (Some red) "Nunito-Medium.ttf" f_35 f_m29_5.

Definition square (n : Z) : Image := plain (Rect_ 0 0 n n) red.

Definition invisibleText : TextWatermark :=
  TextWatermark_ (BaseWatermark_ f_0 (Some blue) "Nunito-Medium.ttf" f_35 f_m29_5) "TEST".

(** The pixel at (1, 1) of a larger picture, as [SubImage] yields it: its
    bounds are (1,1)-(2,2). *)
Definition subPixel : Image := plain (Rectangle_ (Pt 1 1) (Pt 2 2)) red.

(** A part of 4x4 of a larger picture, as [SubImage] yields it: its bounds
    are (1,1)-(5,5). *)
Definition subSquare : Image := plain (Rectangle_ (Pt 1 1) (Pt 5 5)) red.

Definition noWatermark : Watermark := Watermark_ style0 "" f_1.

Definition logo : Watermark := Watermark_ style0 "FG-copyright-mini.png" f_1.


Definition jpegFiles (path : string) : option (list Z) := Some jpegFile.

Definition pngFiles (path : string) : option (list Z) := Some pngFile.

(** The demo environment with a template that writes ["<html>"] and then
    fails (for instance at a field the data does not have). *)
Definition failingTemplateEnv : Env := {|
  os_Open := demoFiles;
  png_decode_chunks := png_decode_chunks (demoEnv demoFiles);
  jpeg_Decode := jpeg_Decode (demoEnv demoFiles);
  jpeg_Encode := jpeg_Encode (demoEnv demoFiles);
  png_Encode := png_Encode (demoEnv demoFiles);
  resize_Resize := resize_Resize (demoEnv demoFiles);
  FontFace := unit;
  gg_LoadFontFace := fun _ _ => Some tt;
  gg_DrawStringAnchored := gg_DrawStringAnchored (demoEnv demoFiles);
  Template := unit;
  template_ParseFiles := fun _ => Some tt;
  template_Execute := fun _ _ _ => (["<html>"], true);
  float_conv_unspecified := fun _ => 0
|}.

(** A text layer of 2x2 with one opaque blue pixel at (0, 0), and the demo
    environment with a renderer that always draws it. *)
Definition dotLayer : Image :=
  Image_ (Rect_ 0 0 2 2)
         (fun x y => if (x =? 0) && (y =? 0) then blue else Color_ 0 0 0 0).

Definition dotEnv : Env := {|
  os_Open := demoFiles;
  png_decode_chunks := png_decode_chunks (demoEnv demoFiles);
  jpeg_Decode := jpeg_Decode (demoEnv demoFiles);
  jpeg_Encode := jpeg_Encode (demoEnv demoFiles);
  png_Encode := png_Encode (demoEnv demoFiles);
  resize_Resize := resize_Resize (demoEnv demoFiles);
  FontFace := unit;
  gg_LoadFontFace := fun _ _ => Some tt;
  gg_DrawStringAnchored := fun _ _ _ _ _ _ _ _ _ _ _ _ => inl dotLayer;
  Template := unit;
  template_ParseFiles := fun _ => Some tt;
  template_Execute := fun _ s1 s2 => ([s1; s2], false);
  float_conv_unspecified := fun _ => 0
|}.

(** The demo environment without a template file. *)
Definition noTemplateEnv : Env := {|
  os_Open := demoFiles;
  png_decode_chunks := png_decode_chunks (demoEnv demoFiles);
  jpeg_Decode := jpeg_Decode (demoEnv demoFiles);
  jpeg_Encode := jpeg_Encode (demoEnv demoFiles);
  png_Encode := png_Encode (demoEnv demoFiles);
  resize_Resize := resize_Resize (demoEnv demoFiles);
  FontFace := unit;
  gg_LoadFontFace := fun _ _ => Some tt;
  gg_DrawStringAnchored := gg_DrawStringAnchored (demoEnv demoFiles);
  Template := unit;
  template_ParseFiles := fun _ => None;
  template_Execute := fun _ _ _ => ([], false);
  float_conv_unspecified := fun _ => 0
|}.

(** A file that starts like a GIF file, and an environment in which
    every file is that one. *)
Definition gifFile : list Z := [71; 73; 70; 56; 57; 97; 1; 0; 1; 0].

Definition gifFiles (path : string) : option (list Z) := Some gifFile.

(* ===================================================================== *)
(** * The compositor's arithmetic                                         *)
(* ===================================================================== *)

Ltac unfold_over :=
  unfold over_channel, over_alpha, u8, u32, m16, is_byte in *;
  rewrite ?Z.shiftr_div_pow2 by lia;
  change (2 ^ 8) with 256.

Lemma over_channel_is_byte d s a ma : is_byte (over_channel d s a ma).
Proof. unfold over_channel, u8, is_byte. apply Z.mod_pos_bound. lia. Qed.

(** Under a mask of alpha 0 a destination byte keeps its value. *)
Lemma over_alpha_mask0 sa : over_alpha sa 0 = 16842495.
Proof. unfold over_alpha. rewrite Z.mul_0_r. reflexivity. Qed.

Lemma over_alpha_opaque sa : 0 <= sa <= 65535 -> over_alpha sa m16 = (65535 - sa) * 257.
Proof.
  intros H. unfold over_alpha, u32, m16.
  rewrite (Z.mod_small (sa * 65535)) by lia.
  rewrite Z.div_mul by lia.
  rewrite (Z.mod_small (65535 - sa)) by lia.
  apply Z.mod_small. lia.
Qed.

Lemma over_channel_mask0 d s sa :
  is_byte d -> over_channel d s (over_alpha sa 0) 0 = d.
Proof.
  intros Hd. rewrite over_alpha_mask0. unfold over_channel, u8, u32, m16.
  unfold is_byte in Hd.
  rewrite Z.mul_0_r. change (0 mod 4294967296) with 0. rewrite Z.add_0_r.
  rewrite Z.mod_mod by lia. rewrite (Z.mod_small (d * 16842495)) by lia.
  replace (d * 16842495) with (d * 257 * 65535) by lia.
  rewrite Z.div_mul by lia. rewrite Z.shiftr_div_pow2 by lia.
  change (2 ^ 8) with 256. lia.
Qed.

(** Over a zero destination byte and without a mask, the byte stored is the
    high byte of the source channel. *)
Lemma over_channel_copy s sa :
  0 <= s <= 65535 ->
  over_channel 0 s (over_alpha sa m16) m16 = s / 256.
Proof.
  intros Hs. unfold over_channel, u8, u32, m16. rewrite Z.mul_0_l.
  change (0 mod 4294967296) with 0. rewrite Z.add_0_l.
  rewrite Z.mod_mod by lia. rewrite (Z.mod_small (s * 65535)) by lia.
  rewrite Z.div_mul by lia. rewrite Z.shiftr_div_pow2 by lia.
  change (2 ^ 8) with 256. apply Z.mod_small. lia.
Qed.

(* ===================================================================== *)
(** * Reading and writing pixels of a byte buffer                         *)
(* ===================================================================== *)

Lemma length_set_pixel pix i c : length (set_pixel pix i c) = length pix.
Proof.
  destruct c as [[[r g] b] a]. unfold set_pixel. by rewrite !length_insert.
Qed.

Lemma byte_at_insert_eq (pix : list Z) i v :
  0 <= i -> (Z.to_nat i < length pix)%nat ->
  byte_at (<[Z.to_nat i := v]> pix) i = v.
Proof.
  intros ? ?. unfold byte_at. by rewrite list_lookup_insert_eq.
Qed.

Lemma byte_at_insert_ne (pix : list Z) i j v :
  0 <= i -> 0 <= j -> i <> j ->
  byte_at (<[Z.to_nat i := v]> pix) j = byte_at pix j.
Proof.
  intros ? ? ?. unfold byte_at. rewrite list_lookup_insert_ne; [done|lia].
Qed.

Lemma pixel_at_set_pixel_eq pix i c :
  0 <= i -> i + 3 < Z.of_nat (length pix) ->
  pixel_at (set_pixel pix i c) i = c.
Proof.
  intros Hi Hlen. destruct c as [[[r g] b] a]. unfold pixel_at, set_pixel.
  repeat f_equal.
  - rewrite !byte_at_insert_ne by lia.
    apply byte_at_insert_eq; [lia|]. lia.
  - rewrite !byte_at_insert_ne by lia.
    apply byte_at_insert_eq; [lia|]. rewrite !length_insert. lia.
  - rewrite !byte_at_insert_ne by lia.
    apply byte_at_insert_eq; [lia|]. rewrite !length_insert. lia.
  - apply byte_at_insert_eq; [lia|]. rewrite !length_insert. lia.
Qed.

Lemma pixel_at_set_pixel_ne pix i j c :
  0 <= i -> 0 <= j -> (i + 3 < j \/ j + 3 < i) ->
  pixel_at (set_pixel pix i c) j = pixel_at pix j.
Proof.
  intros Hi Hj Hd. destruct c as [[[r g] b] a]. unfold pixel_at, set_pixel.
  by rewrite !byte_at_insert_ne by lia.
Qed.

Lemma insert_lookup_default_id (pix : list Z) (k : nat) :
  <[k := default 0 (pix !! k)]> pix = pix.
Proof.
  destruct (pix !! k) as [v|] eqn:E.
  - by apply list_insert_id.
  - apply list_insert_ge. by apply lookup_ge_None.
Qed.

(** Writing back the bytes just read changes nothing, wherever [i] points. *)
Lemma set_pixel_pixel_at pix i : set_pixel pix i (pixel_at pix i) = pix.
Proof.
  unfold set_pixel, pixel_at, byte_at. by rewrite !insert_lookup_default_id.
Qed.

Lemma Forall_set_pixel pix i r g b a :
  Forall is_byte pix -> is_byte r -> is_byte g -> is_byte b -> is_byte a ->
  Forall is_byte (set_pixel pix i (r, g, b, a)).
Proof.
  intros. unfold set_pixel. by repeat apply Forall_insert.
Qed.

Lemma byte_at_is_byte pix i : Forall is_byte pix -> is_byte (byte_at pix i).
Proof.
  intros H. unfold byte_at.
  destruct (pix !! Z.to_nat i) as [v|] eqn:E; simpl.
  - by apply (Forall_lookup_1 _ _ (Z.to_nat i) _ H).
  - unfold is_byte. lia.
Qed.

(* ===================================================================== *)
(** * Well-formed buffers and the effect of the drawing loops             *)
(* ===================================================================== *)

Lemma Point_In_spec x y r :
  Point_In x y r = true <->
  X (Min r) <= x < X (Max r) /\ Y (Min r) <= y < Y (Max r).
Proof. unfold Point_In. rewrite !andb_true_iff. lia. Qed.

Lemma Point_In_false x y r :
  Point_In x y r = false <->
  ~ (X (Min r) <= x < X (Max r) /\ Y (Min r) <= y < Y (Max r)).
Proof. rewrite <- Point_In_spec. by destruct (Point_In x y r). Qed.

Lemma mul3NonNeg_4 dx dy :
  mul3NonNeg 4 dx dy =
    if (0 <=? dx) && (dx <? 2 ^ 62) && (0 <=? dy) && (4 * dx * dy <? 2 ^ 63)
    then 4 * dx * dy else -1.
Proof.
  unfold mul3NonNeg, Mul64, int_of_uint64.
  change (2 ^ 64) with 18446744073709551616.
  change (2 ^ 63) with 9223372036854775808.
  change (2 ^ 62) with 4611686018427387904.
  change (4 <? 0) with false. cbn [orb].
  destruct (dx <? 0) eqn:E1.
  { cbn [orb]. replace (0 <=? dx) with false by lia. reflexivity. }
  destruct (dy <? 0) eqn:E2.
  { cbn [orb]. replace (0 <=? dy) with false by lia. by rewrite andb_false_r. }
  cbn [orb]. replace (0 <=? dx) with true by lia. replace (0 <=? dy) with true by lia.
  cbn [andb]. rewrite andb_true_r.
  destruct (dx <? 4611686018427387904) eqn:E3.
  - replace (4 * dx / 18446744073709551616) with 0 by lia.
    replace ((4 * dx) mod 18446744073709551616) with (4 * dx) by lia.
    cbn [Z.eqb negb andb].
    set (q := 4 * dx * dy). assert (0 <= q) by (unfold q; nia).
    destruct (q <? 9223372036854775808) eqn:E4.
    + replace (q / 18446744073709551616) with 0 by lia.
      replace (q mod 18446744073709551616) with q by lia.
      cbn [Z.eqb negb]. rewrite E4. replace (q <? 0) with false by lia. reflexivity.
    + destruct (q / 18446744073709551616 =? 0) eqn:E5; [|reflexivity].
      cbn [negb].
      replace (q mod 18446744073709551616) with q by lia.
      rewrite E4. replace (q - 18446744073709551616 <? 0) with true by lia. reflexivity.
  - cbn [andb].
    replace (negb (4 * dx / 18446744073709551616 =? 0)) with true by lia. reflexivity.
Qed.

Lemma allocatable_wf r : allocatable r -> Rectangle_wf r.
Proof. unfold allocatable, Rectangle_wf, Dx, Dy. lia. Qed.

Lemma NewRGBA_Ok r :
  allocatable r ->
  NewRGBA r = Ok (RGBA_ (replicate (Z.to_nat (4 * Dx r * Dy r)) 0) (4 * Dx r) r).
Proof.
  intros (Hx & Hy & Hn). unfold NewRGBA. rewrite mul3NonNeg_4.
  unfold maxAlloc in Hn.
  assert (0 <= 4 * Dx r * Dy r) by nia.
  replace ((0 <=? Dx r) && (Dx r <? 2 ^ 62) && (0 <=? Dy r) && (4 * Dx r * Dy r <? 2 ^ 63))
    with true by lia.
  replace (4 * Dx r * Dy r <? 0) with false by lia.
  unfold make_bytes, maxAlloc.
  replace ((4 * Dx r * Dy r <? 0) || (2 ^ 48 <? 4 * Dx r * Dy r)) with false by lia.
  reflexivity.
Qed.

Lemma NewRGBA_allocatable r p : NewRGBA r = Ok p -> allocatable r.
Proof.
  unfold NewRGBA, allocatable. rewrite mul3NonNeg_4.
  destruct ((0 <=? Dx r) && (Dx r <? 2 ^ 62) && (0 <=? Dy r) && (4 * Dx r * Dy r <? 2 ^ 63))
    eqn:E; [|discriminate].
  destruct (4 * Dx r * Dy r <? 0) eqn:E0; [discriminate|].
  unfold make_bytes.
  destruct ((4 * Dx r * Dy r <? 0) || (maxAlloc <? 4 * Dx r * Dy r)) eqn:E1; [discriminate|].
  intros _. lia.
Qed.

Lemma NewRGBA_inv r p :
  NewRGBA r = Ok p ->
  Rectangle_wf r /\ p = RGBA_ (replicate (Z.to_nat (4 * Dx r * Dy r)) 0) (4 * Dx r) r.
Proof.
  intros H. pose proof (NewRGBA_allocatable _ _ H) as Ha.
  rewrite (NewRGBA_Ok _ Ha) in H. injection H as <-.
  split; [by apply allocatable_wf | reflexivity].
Qed.

(** [image.NewRGBA] returns exactly for the allocatable rectangles, and
    panics with a run-time error for all others. *)
Lemma NewRGBA_Ok_iff r : (exists p, NewRGBA r = Ok p) <-> allocatable r.
Proof.
  split.
  - intros [p H]. by apply NewRGBA_allocatable in H.
  - intros H. rewrite (NewRGBA_Ok _ H). eauto.
Qed.

Lemma NewRGBA_panic_kinds r e : NewRGBA r = Panic e -> exists msg, e = RuntimePanic msg.
Proof.
  unfold NewRGBA.
  destruct (mul3NonNeg 4 (Dx r) (Dy r) <? 0); [intros [= <-]; eauto|].
  unfold make_bytes.
  destruct ((_ <? 0) || (maxAlloc <? _)); [intros [= <-]; eauto|discriminate].
Qed.

Lemma NewRGBA_wf r p : NewRGBA r = Ok p -> RGBA_wf p /\ Rect p = r.
Proof.
  intros H. apply NewRGBA_inv in H as [[Hx Hy] ->]. split; [|reflexivity].
  split; simpl.
  - by split.
  - reflexivity.
  - rewrite length_replicate. unfold Dx, Dy. nia.
  - apply Forall_replicate. unfold is_byte. lia.
Qed.

Lemma PixOffset_range p x y :
  RGBA_wf p -> Point_In x y (Rect p) = true ->
  0 <= PixOffset p x y /\ PixOffset p x y + 3 < Z.of_nat (length (Pix p)).
Proof.
  intros [_ Hs Hl _] Hin. apply Point_In_spec in Hin.
  unfold PixOffset. rewrite Hs, Hl. unfold Dx, Dy in *. nia.
Qed.

Lemma PixOffset_apart p x y x' y' :
  RGBA_wf p -> Point_In x y (Rect p) = true -> Point_In x' y' (Rect p) = true ->
  (x, y) <> (x', y') ->
  PixOffset p x y + 3 < PixOffset p x' y' \/ PixOffset p x' y' + 3 < PixOffset p x y.
Proof.
  intros [_ Hs _ _] Hin Hin' Hne.
  apply Point_In_spec in Hin. apply Point_In_spec in Hin'.
  unfold PixOffset. rewrite Hs. unfold Dx in *.
  destruct (Z.lt_trichotomy y y') as [Hy|[Hy|Hy]].
  - left. nia.
  - subst y'. assert (x <> x') by congruence. nia.
  - right. nia.
Qed.

Lemma over_pixel_is_byte d s ma :
  let '(r, g, b, a) := over_pixel d s ma in
  is_byte r /\ is_byte g /\ is_byte b /\ is_byte a.
Proof.
  destruct d as [[[dr dg] db] da]. simpl.
  repeat split; apply Z.mod_pos_bound; lia.
Qed.

Section DrawPixel.
Variables (r : Rectangle) (src : Image) (sp : Point)
          (mask : option Image) (mp : Point).

Let step := drawRGBA_pixel r src sp mask mp.

Lemma drawRGBA_pixel_Rect d x y : Rect (step d x y) = Rect d.
Proof. reflexivity. Qed.

Lemma drawRGBA_pixel_Stride d x y : Stride (step d x y) = Stride d.
Proof. reflexivity. Qed.

Lemma drawRGBA_pixel_wf d x y : RGBA_wf d -> RGBA_wf (step d x y).
Proof.
  intros [H1 H2 H3 H4].
  split; unfold step, drawRGBA_pixel; cbn [Pix Stride Rect]; try assumption.
  - by rewrite length_set_pixel.
  - pose proof (over_pixel_is_byte (pixel_at (Pix d) (PixOffset d x y))
      (At src (X sp + x - X (Min r)) (Y sp + y - Y (Min r)))
      (match mask with
       | Some mk => cA (At mk (X mp + x - X (Min r)) (Y mp + y - Y (Min r)))
       | None => m16
       end)) as Hb.
    destruct (over_pixel _ _ _) as [[[r' g'] b'] a'].
    destruct Hb as (? & ? & ? & ?). by apply Forall_set_pixel.
Qed.

Lemma drawRGBA_pixel_here d x y :
  RGBA_wf d -> Point_In x y (Rect d) = true ->
  RGBA_pixel (step d x y) x y = blend r src sp mask mp d x y.
Proof.
  intros Hwf Hin. destruct (PixOffset_range d x y Hwf Hin) as [H0 H1].
  unfold RGBA_pixel.
  change (PixOffset (step d x y) x y) with (PixOffset d x y).
  change (Pix (step d x y))
    with (set_pixel (Pix d) (PixOffset d x y) (blend r src sp mask mp d x y)).
  by apply pixel_at_set_pixel_eq.
Qed.

Lemma drawRGBA_pixel_elsewhere d x y qx qy :
  RGBA_wf d -> Point_In x y (Rect d) = true -> Point_In qx qy (Rect d) = true ->
  (x, y) <> (qx, qy) ->
  RGBA_pixel (step d x y) qx qy = RGBA_pixel d qx qy.
Proof.
  intros Hwf Hin Hq Hne.
  destruct (PixOffset_range d x y Hwf Hin) as [H0 H1].
  destruct (PixOffset_range d qx qy Hwf Hq) as [Hq0 Hq1].
  pose proof (PixOffset_apart d x y qx qy Hwf Hin Hq Hne) as Hap.
  unfold RGBA_pixel.
  change (PixOffset (step d x y) qx qy) with (PixOffset d qx qy).
  change (Pix (step d x y))
    with (set_pixel (Pix d) (PixOffset d x y) (blend r src sp mask mp d x y)).
  by apply pixel_at_set_pixel_ne.
Qed.

(** The inner loop over the first [n] pixels of row [y], from column [x0]. *)
Lemma draw_row d y x0 (n : nat) :
  RGBA_wf d ->
  (forall x, x0 <= x < x0 + Z.of_nat n -> Point_In x y (Rect d) = true) ->
  let d' := foldl (fun d x => step d x y) d (seqZ x0 (Z.of_nat n)) in
  RGBA_wf d' /\ Rect d' = Rect d /\
  forall qx qy, Point_In qx qy (Rect d) = true ->
    RGBA_pixel d' qx qy =
      if (qy =? y) && (x0 <=? qx) && (qx <? x0 + Z.of_nat n)
      then blend r src sp mask mp d qx qy
      else RGBA_pixel d qx qy.
Proof.
  intros Hwf. induction n as [|n IH]; intros Hin.
  - simpl. split; [done|]. split; [done|]. intros qx qy _.
    destruct ((qy =? y) && (x0 <=? qx) && (qx <? x0 + Z.of_nat 0)) eqn:E; [lia|done].
  - rewrite seqZ_S, foldl_app. simpl.
    destruct IH as (Hwf' & HR & Hpix); [intros; apply Hin; lia|].
    set (d' := foldl (fun d x => step d x y) d (seqZ x0 (Z.of_nat n))) in *.
    assert (Hlast : Point_In (x0 + Z.of_nat n) y (Rect d') = true)
      by (rewrite HR; apply Hin; lia).
    split; [|split].
    + by apply drawRGBA_pixel_wf.
    + done.
    + intros qx qy Hq.
      destruct (decide ((x0 + Z.of_nat n, y) = (qx, qy))) as [[= <- <-]|Hne].
      * rewrite drawRGBA_pixel_here by done.
        unfold blend. rewrite Hpix by (by rewrite <- HR).
        destruct ((y =? y) && (x0 <=? x0 + Z.of_nat n)
                  && (x0 + Z.of_nat n <? x0 + Z.of_nat n)) eqn:E1; [lia|].
        destruct ((y =? y) && (x0 <=? x0 + Z.of_nat n)
                  && (x0 + Z.of_nat n <? x0 + Z.of_nat (S n))) eqn:E2; [done|lia].
      * rewrite drawRGBA_pixel_elsewhere by (try done; by rewrite HR).
        rewrite Hpix by done.
        assert (qy <> y \/ qx <> x0 + Z.of_nat n) as Hd.
        { destruct (decide (qy = y)); [right|by left]. congruence. }
        destruct ((qy =? y) && (x0 <=? qx) && (qx <? x0 + Z.of_nat n)) eqn:E1;
        destruct ((qy =? y) && (x0 <=? qx) && (qx <? x0 + Z.of_nat (S n))) eqn:E2;
          try done; lia.
Qed.

End DrawPixel.

Lemma blend_ext r src sp mask mp d d' x y :
  RGBA_pixel d x y = RGBA_pixel d' x y ->
  blend r src sp mask mp d x y = blend r src sp mask mp d' x y.
Proof. unfold blend. by intros ->. Qed.

Section DrawLoops.
Variables (r : Rectangle) (src : Image) (sp : Point)
          (mask : option Image) (mp : Point).

Let step := drawRGBA_pixel r src sp mask mp.

(** The outer loop over the first [k] rows from [y0], each [n] pixels wide. *)
Lemma draw_rows d x0 (n : nat) y0 (k : nat) :
  RGBA_wf d ->
  (forall x y, x0 <= x < x0 + Z.of_nat n -> y0 <= y < y0 + Z.of_nat k ->
               Point_In x y (Rect d) = true) ->
  let d' := foldl (fun d y => foldl (fun d x => step d x y) d (seqZ x0 (Z.of_nat n)))
                  d (seqZ y0 (Z.of_nat k)) in
  RGBA_wf d' /\ Rect d' = Rect d /\
  forall qx qy, Point_In qx qy (Rect d) = true ->
    RGBA_pixel d' qx qy =
      if (y0 <=? qy) && (qy <? y0 + Z.of_nat k) && (x0 <=? qx) && (qx <? x0 + Z.of_nat n)
      then blend r src sp mask mp d qx qy
      else RGBA_pixel d qx qy.
Proof.
  intros Hwf. induction k as [|k IH]; intros Hin.
  - simpl. split; [done|]. split; [done|]. intros qx qy _.
    destruct ((y0 <=? qy) && (qy <? y0 + Z.of_nat 0) && (x0 <=? qx)
              && (qx <? x0 + Z.of_nat n)) eqn:E; [lia|done].
  - rewrite seqZ_S, foldl_app. cbn [foldl].
    destruct IH as (Hwf' & HR & Hpix); [intros; apply Hin; lia|].
    set (d' := foldl _ d (seqZ y0 (Z.of_nat k))) in *.
    destruct (draw_row r src sp mask mp d' (y0 + Z.of_nat k) x0 n Hwf')
      as (Hwf'' & HR' & Hpix').
    { intros x Hx. rewrite HR. apply Hin; lia. }
    split; [exact Hwf''|]. split; [etrans; [exact HR'|exact HR]|].
    intros qx qy Hq. etrans; [apply Hpix'; by rewrite HR|].
    destruct ((qy =? y0 + Z.of_nat k) && (x0 <=? qx) && (qx <? x0 + Z.of_nat n)) eqn:E1.
    + assert (Hsame : RGBA_pixel d' qx qy = RGBA_pixel d qx qy).
      { rewrite Hpix by done.
        destruct ((y0 <=? qy) && (qy <? y0 + Z.of_nat k) && (x0 <=? qx)
                  && (qx <? x0 + Z.of_nat n)) eqn:E2; [lia|done]. }
      rewrite (blend_ext r src sp mask mp d' d qx qy Hsame).
      destruct ((y0 <=? qy) && (qy <? y0 + Z.of_nat (S k)) && (x0 <=? qx)
                && (qx <? x0 + Z.of_nat n)) eqn:E3; [done|lia].
    + rewrite Hpix by done.
      destruct ((y0 <=? qy) && (qy <? y0 + Z.of_nat k) && (x0 <=? qx)
                && (qx <? x0 + Z.of_nat n)) eqn:E2;
      destruct ((y0 <=? qy) && (qy <? y0 + Z.of_nat (S k)) && (x0 <=? qx)
                && (qx <? x0 + Z.of_nat n)) eqn:E3; try done; lia.
Qed.

(** [drawRGBA] on a rectangle inside the destination: the pixels of the
    rectangle are blended, all others keep their bytes. *)
Lemma drawRGBA_spec dst :
  RGBA_wf dst -> Rectangle_wf r ->
  (forall x y, Point_In x y r = true -> Point_In x y (Rect dst) = true) ->
  let d' := drawRGBA dst r src sp mask mp in
  RGBA_wf d' /\ Rect d' = Rect dst /\
  forall x y, Point_In x y (Rect dst) = true ->
    RGBA_pixel d' x y =
      if Point_In x y r then blend r src sp mask mp dst x y else RGBA_pixel dst x y.
Proof.
  intros Hwf [Hx Hy] Hsub. unfold drawRGBA.
  assert (Ex : Dx r = Z.of_nat (Z.to_nat (Dx r))) by (unfold Dx; lia).
  assert (Ey : Dy r = Z.of_nat (Z.to_nat (Dy r))) by (unfold Dy; lia).
  rewrite Ex, Ey.
  destruct (draw_rows dst (X (Min r)) (Z.to_nat (Dx r)) (Y (Min r)) (Z.to_nat (Dy r)) Hwf)
    as (Hwf' & HR & Hpix).
  { intros x y H1 H2. apply Hsub, Point_In_spec. unfold Dx, Dy in *. lia. }
  split; [done|]. split; [done|].
  intros x y Hin. rewrite Hpix by done. rewrite <- Ex, <- Ey.
  unfold Point_In, Dx, Dy.
  destruct ((Y (Min r) <=? y) && (y <? Y (Min r) + (Y (Max r) - Y (Min r)))
            && (X (Min r) <=? x) && (x <? X (Min r) + (X (Max r) - X (Min r)))) eqn:E1;
  destruct ((X (Min r) <=? x) && (x <? X (Max r)) && (Y (Min r) <=? y)
            && (y <? Y (Max r))) eqn:E2; try done; lia.
Qed.

End DrawLoops.

(* ===================================================================== *)
(** * Clipping, and what [DrawMask] does to each pixel                    *)
(* ===================================================================== *)

Lemma Empty_no_point r x y : Empty r = true -> Point_In x y r = false.
Proof. unfold Empty, Point_In. lia. Qed.

Lemma Point_In_ZR x y : Point_In x y ZR = false.
Proof. unfold Point_In, ZR. simpl. lia. Qed.

Lemma Point_In_Intersect x y r s :
  Point_In x y (Intersect r s) = Point_In x y r && Point_In x y s.
Proof.
  unfold Intersect.
  destruct (X (Min r) <? X (Min s)) eqn:E1, (Y (Min r) <? Y (Min s)) eqn:E2,
           (X (Max s) <? X (Max r)) eqn:E3, (Y (Max s) <? Y (Max r)) eqn:E4;
  match goal with |- context [Empty ?r'] => destruct (Empty r') eqn:E end;
  rewrite ?Point_In_ZR; unfold Empty, Point_In in *; simpl in *; lia.
Qed.

Lemma Intersect_wf r s : Rectangle_wf (Intersect r s).
Proof.
  unfold Intersect.
  match goal with |- context [Empty ?r'] => destruct (Empty r') eqn:E end.
  - unfold Rectangle_wf, ZR. simpl. lia.
  - unfold Empty, Rectangle_wf in *. lia.
Qed.

Lemma clip_spec dstB r srcB sp maskB mp :
  let '(rc, sp', mp') := clip dstB r srcB sp maskB mp in
  Rectangle_wf rc /\
  (forall x y,
     Point_In x y rc =
       Point_In x y r && Point_In x y dstB
       && Point_In x y (Rect_Add srcB (Point_Sub (Min r) sp))
       && match maskB with
          | Some mB => Point_In x y (Rect_Add mB (Point_Sub (Min r) mp))
          | None => true
          end) /\
  X sp' - X (Min rc) = X sp - X (Min r) /\ Y sp' - Y (Min rc) = Y sp - Y (Min r) /\
  X mp' - X (Min rc) = X mp - X (Min r) /\ Y mp' - Y (Min rc) = Y mp - Y (Min r).
Proof.
  unfold clip.
  set (rc := match maskB with
             | Some mB => Intersect _ _
             | None => Intersect _ _
             end).
  assert (Hwf : Rectangle_wf rc) by (destruct maskB; apply Intersect_wf).
  assert (Hin : forall x y,
     Point_In x y rc =
       Point_In x y r && Point_In x y dstB
       && Point_In x y (Rect_Add srcB (Point_Sub (Min r) sp))
       && match maskB with
          | Some mB => Point_In x y (Rect_Add mB (Point_Sub (Min r) mp))
          | None => true
          end).
  { intros x y. subst rc. destruct maskB.
    - by rewrite !Point_In_Intersect.
    - by rewrite !Point_In_Intersect, andb_true_r. }
  destruct ((X (Min rc) - X (Min r) =? 0) && (Y (Min rc) - Y (Min r) =? 0)) eqn:E;
    (split; [done|]; split; [done|]); simpl; lia.
Qed.

Lemma DrawMask_spec dst r src sp mask mp :
  RGBA_wf dst ->
  let d' := DrawMask dst r src sp mask mp in
  RGBA_wf d' /\ Rect d' = Rect dst /\
  forall x y, Point_In x y (Rect dst) = true ->
    RGBA_pixel d' x y =
      if drawn dst r src sp mask mp x y
      then blend r src sp mask mp dst x y
      else RGBA_pixel dst x y.
Proof.
  intros Hwf. unfold DrawMask.
  pose proof (clip_spec (Rect dst) r (Bounds src) sp (option_map Bounds mask) mp) as Hc.
  destruct (clip _ _ _ _ _ _) as [[rc sp'] mp'].
  destruct Hc as (Hrc & Hin & Hsx & Hsy & Hmx & Hmy).
  assert (Hdrawn : forall x y, drawn dst r src sp mask mp x y = Point_In x y rc).
  { intros x y. rewrite Hin. unfold drawn. by destruct mask. }
  destruct (Empty rc) eqn:HE.
  - split; [done|]. split; [done|]. intros x y _.
    by rewrite Hdrawn, (Empty_no_point _ _ _ HE).
  - destruct (drawRGBA_spec rc src sp' mask mp' dst Hwf Hrc) as (Hwf' & HR & Hpix).
    { intros x y Hxy. rewrite Hin in Hxy.
      repeat (apply andb_true_iff in Hxy as [Hxy ?]). done. }
    split; [done|]. split; [done|]. intros x y Hxy.
    rewrite Hpix, Hdrawn by done.
    destruct (Point_In x y rc); [|done].
    unfold blend.
    replace (X sp' + x - X (Min rc)) with (X sp + x - X (Min r)) by lia.
    replace (Y sp' + y - Y (Min rc)) with (Y sp + y - Y (Min r)) by lia.
    replace (X mp' + x - X (Min rc)) with (X mp + x - X (Min r)) by lia.
    replace (Y mp' + y - Y (Min rc)) with (Y mp + y - Y (Min r)) by lia.
    done.
Qed.

Lemma foldl_fixed {A B} (f : A -> B -> A) (l : list B) (a : A) :
  (forall b, f a b = a) -> foldl f a l = a.
Proof. intros H. induction l as [|b l IH]; simpl; [done|]. by rewrite H. Qed.

Lemma drawRGBA_Rect dst r src sp mask mp :
  Rect (drawRGBA dst r src sp mask mp) = Rect dst /\
  Stride (drawRGBA dst r src sp mask mp) = Stride dst.
Proof.
  unfold drawRGBA. generalize (seqZ (Y (Min r)) (Dy r)) as ys.
  generalize (seqZ (X (Min r)) (Dx r)) as xs. intros xs ys. revert dst.
  induction ys as [|y ys IH]; intros dst; simpl; [done|].
  destruct (IH (foldl (fun d x => drawRGBA_pixel r src sp mask mp d x y) dst xs))
    as [-> ->].
  clear IH. revert dst. induction xs as [|x xs IHx]; intros dst; simpl; [done|].
  destruct (IHx (drawRGBA_pixel r src sp mask mp dst x y)) as [-> ->]. done.
Qed.

(** Drawing never changes the destination's rectangle or stride. *)
Lemma DrawMask_Rect dst r src sp mask mp :
  Rect (DrawMask dst r src sp mask mp) = Rect dst /\
  Stride (DrawMask dst r src sp mask mp) = Stride dst.
Proof.
  unfold DrawMask. destruct (clip _ _ _ _ _ _) as [[rc sp'] mp'].
  destruct (Empty rc); [done|]. apply drawRGBA_Rect.
Qed.

(** ** A fully transparent mask *)

Lemma over_pixel_mask0 pix i s :
  Forall is_byte pix -> over_pixel (pixel_at pix i) s 0 = pixel_at pix i.
Proof.
  intros H. unfold pixel_at, over_pixel.
  by rewrite !over_channel_mask0 by (by apply byte_at_is_byte).
Qed.

Lemma drawRGBA_pixel_mask0 r src sp mk mp d x y :
  Forall is_byte (Pix d) -> (forall u v, cA (At mk u v) = 0) ->
  drawRGBA_pixel r src sp (Some mk) mp d x y = d.
Proof.
  intros Hb H0. unfold drawRGBA_pixel. rewrite H0.
  rewrite over_pixel_mask0 by done. rewrite set_pixel_pixel_at. by destruct d.
Qed.

(** [DrawMask] through a mask whose alpha is 0 everywhere leaves every byte
    of the destination as it was, whatever the source. *)
Lemma DrawMask_mask0 dst r src sp mk mp :
  Forall is_byte (Pix dst) -> (forall u v, cA (At mk u v) = 0) ->
  DrawMask dst r src sp (Some mk) mp = dst.
Proof.
  intros Hb H0. unfold DrawMask. destruct (clip _ _ _ _ _ _) as [[rc sp'] mp'].
  destruct (Empty rc); [done|]. unfold drawRGBA.
  apply foldl_fixed. intros y. apply foldl_fixed. intros x.
  by apply drawRGBA_pixel_mask0.
Qed.

(** ** Copying an image into a fresh buffer *)

Lemma byte_at_replicate n i : byte_at (replicate n 0) i = 0.
Proof.
  unfold byte_at. destruct (replicate n 0 !! Z.to_nat i) as [v|] eqn:E; [|done].
  by apply lookup_replicate in E as [-> _].
Qed.

Lemma over_pixel_copy c :
  Color_wf c -> over_pixel (0, 0, 0, 0) c m16 = RGBAModel c.
Proof.
  intros (Hr & Hg & Hb & Ha). unfold over_pixel, RGBAModel.
  rewrite !over_channel_copy by done.
  by rewrite !Z.shiftr_div_pow2 by lia.
Qed.

Lemma copyBase_wf base p : copyBase base = Ok p -> RGBA_wf p /\ Rect p = Bounds base.
Proof.
  unfold copyBase. destruct (NewRGBA (Bounds base)) as [p0|] eqn:E; [|discriminate].
  simpl. intros [= <-]. apply NewRGBA_wf in E as [Hwf HR].
  destruct (DrawMask_spec p0 (Bounds base) base ZP None ZP Hwf) as (? & ? & _).
  split; [done|]. unfold Draw. congruence.
Qed.

Lemma copyBase_Ok base : allocatable (Bounds base) -> exists p, copyBase base = Ok p.
Proof. intros H. unfold copyBase. rewrite (NewRGBA_Ok _ H). simpl. eauto. Qed.

(** For an image whose bounds start at the origin, the buffer built by
    lines 60-62 is a copy of it. *)
Lemma copyBase_origin base p :
  Image_wf base -> Min (Bounds base) = ZP ->
  copyBase base = Ok p -> RGBA_copy_of p base.
Proof.
  intros [Hb Hc] Hmin. unfold copyBase.
  destruct (NewRGBA (Bounds base)) as [p0|] eqn:E; [|discriminate].
  simpl. intros [= <-].
  pose proof (NewRGBA_inv _ _ E) as [_ Ep0].
  apply NewRGBA_wf in E as [Hwf HR].
  destruct (DrawMask_spec p0 (Bounds base) base ZP None ZP Hwf) as (Hwf' & HR' & Hpix).
  fold (Draw p0 (Bounds base) base ZP) in *.
  destruct Hwf' as [_ Hs Hl _]. rewrite HR', HR in Hs, Hl.
  split; [congruence|]. split; [done|]. split; [done|].
  intros x y Hin. rewrite Hpix by (by rewrite HR).
  assert (Hd : drawn p0 (Bounds base) base ZP None ZP x y = true).
  { unfold drawn. rewrite HR, Hin. simpl.
    apply Point_In_spec in Hin. rewrite !andb_true_r.
    apply Point_In_spec. simpl. rewrite Hmin in *. simpl in *. lia. }
  assert (Hz : RGBA_pixel p0 x y = (0, 0, 0, 0)).
  { unfold RGBA_pixel, pixel_at. rewrite Ep0. simpl. by rewrite !byte_at_replicate. }
  rewrite Hd. unfold blend. rewrite Hz, Hmin.
  change (X ZP) with 0. change (Y ZP) with 0.
  replace (0 + x - 0) with x by lia. replace (0 + y - 0) with y by lia.
  by apply over_pixel_copy.
Qed.
(* ===================================================================== *)
(** * The rotation angle of the text layer                                *)
(* ===================================================================== *)

(** The literals are float64 values in canonical form. *)
Example literals_valid :
  forallb valid [f_0; f_1; f_2; f_0_5; f_0_6; f_35; f_180; f_255; f_m29_5; deg2rad] = true.
Proof. vm_compute. reflexivity. Qed.

Lemma PI_lower_bound : (3.1415 < PI)%R.
Proof.
  pose proof (Machin.PI_2_3_7_ineq 1) as [H _].
  unfold sum_f_R0, tg_alt, Machin.PI_2_3_7_tg, Ratan_seq in H. simpl in H. lra.
Qed.

(** The multiplier of [CreateImage] is the float64 nearest to 157/9000,
    that is to 3.14/180. *)
Lemma deg2rad_value : deg2rad = S754_finite false 5028018783979860 (-58).
Proof. vm_compute. reflexivity. Qed.

Lemma deg2rad_to_R : to_R deg2rad = (5028018783979860 / 2 ^ 58)%R.
Proof.
  rewrite deg2rad_value. unfold to_R. simpl. lra.
Qed.

(** C1 (the code departs from the claim).  The factor applied to [-Rotate]
    is the float64 nearest to 3.14/180 (within half a unit in the last
    place, 2^-59), not pi/180: it falls short of pi/180 by more than 8e-6,
    some 10^12 times the rounding error of a float64 of that size.  For a
    rotation of 180 degrees the angle is -3.1399999999999997 and misses
    -pi by more than 0.0015. *)
Theorem CreateImage_angle_factor_is_3_14_over_180 :
  (- / 2 ^ 59 <= to_R deg2rad - 314 / 100 / 180 <= / 2 ^ 59)%R /\
  (to_R deg2rad < PI / 180 - 8 / 1000000)%R /\
  CreateImage_angle rotate180 = S754_finite true 7070651414971678 (-51) /\
  (- PI + 15 / 10000 < to_R (CreateImage_angle rotate180))%R.
Proof.
  pose proof PI_lower_bound as Hpi.
  split; [|split; [|split]].
  - rewrite deg2rad_to_R. lra.
  - rewrite deg2rad_to_R. lra.
  - vm_compute. reflexivity.
  - replace (CreateImage_angle rotate180)
      with (S754_finite true 7070651414971678 (-51)) by (vm_compute; reflexivity).
    unfold to_R. simpl. lra.
Qed.

(** The angle of the handler's own text watermark (-29.5 degrees):
    0.514611111111111, where 29.5 * pi/180 is 0.5148721293383272. *)
Example CreateImage_angle_demo :
  CreateImage_angle demoTextWatermark = S754_finite false 4635204816481433 (-53).
Proof. vm_compute. reflexivity. Qed.

(* ===================================================================== *)
(** * The graphical watermark and the style fields                        *)
(* ===================================================================== *)

(** C2.  [ApplyToImage] reads only [Path] and [Scale] of the watermark:
    two watermarks that agree on these give the same result (the same
    image, or the same panic) on the same base image, whatever their
    [Opacity], [Color], [Font], [Size] and [Rotate]. *)
Theorem ApplyToImage_ignores_style (env : Env) (w1 w2 : Watermark) (baseImage : Image) :
  Path w1 = Path w2 -> Scale w1 = Scale w2 ->
  ApplyToImage env w1 baseImage = ApplyToImage env w2 baseImage.
Proof.
  intros HP HS. unfold ApplyToImage. rewrite HP, HS. reflexivity.
Qed.

Lemma ApplyToImage_ignores_style_witness :
  let w1 := Watermark_ style0 "FG-copyright-mini.png" f_1 in
  let w2 := Watermark_ style1 "FG-copyright-mini.png" f_1 in
  let base := plain (Rect_ 0 0 4 4) red in
  Opacity (Watermark_Base w1) <> Opacity (Watermark_Base w2) /\
  ApplyToImage (demoEnv demoFiles) w1 base = ApplyToImage (demoEnv demoFiles) w2 base.
Proof.
  split; [discriminate|].
  apply (ApplyToImage_ignores_style (demoEnv demoFiles)); reflexivity.
Defined.

(* ===================================================================== *)
(** * Encoding to base64                                                  *)
(* ===================================================================== *)

Lemma encodeImageToBase64_buffer env img imgType :
  encodeImageToBase64 env img imgType = EncodeToString (encodeBuffer env img imgType).
Proof.
  unfold encodeImageToBase64, encodeBuffer.
  destruct (String.eqb imgType "jpeg"); [done|].
  destruct (String.eqb imgType "png"); done.
Qed.

(** C3.  For a format tag other than "jpeg" and "png" nothing is written to
    the buffer and the function returns the empty string, the base64 text
    of no bytes; "gif" is such a tag. *)
Theorem encodeImageToBase64_unsupported (env : Env) (img : Image) (imgType : string) :
  imgType <> "jpeg" -> imgType <> "png" ->
  encodeBuffer env img imgType = [] /\
  encodeImageToBase64 env img imgType = "" /\
  encodeBuffer env img "gif" = [] /\
  encodeImageToBase64 env img "gif" = "".
Proof.
  intros Hj Hp.
  assert (E : encodeBuffer env img imgType = []).
  { unfold encodeBuffer.
    destruct (String.eqb_spec imgType "jpeg"); [done|].
    destruct (String.eqb_spec imgType "png"); done. }
  split; [done|]. split; [by rewrite encodeImageToBase64_buffer, E|].
  split; reflexivity.
Qed.

Lemma encodeImageToBase64_unsupported_witness :
  let env := demoEnv demoFiles in
  let img := plain (Rect_ 0 0 4 4) red in
  encodeBuffer env img "JPEG" = [] /\
  encodeImageToBase64 env img "JPEG" = "" /\
  encodeBuffer env img "gif" = [] /\
  encodeImageToBase64 env img "gif" = "".
Proof.
  apply (encodeImageToBase64_unsupported (demoEnv demoFiles)
           (plain (Rect_ 0 0 4 4) red) "JPEG"); discriminate.
Defined.

(** C10.  The errors of [jpeg.Encode] and [png.Encode] are dropped: the
    result is the base64 text of the bytes that reached the buffer, whether
    or not the encoder reported an error, and so it is the same for two
    environments whose encoders wrote the same bytes. *)
Theorem encodeImageToBase64_drops_errors (env : Env) (img : Image) :
  encodeImageToBase64 env img "jpeg" = EncodeToString (fst (jpeg_Encode env img)) /\
  encodeImageToBase64 env img "png" = EncodeToString (fst (png_Encode env img)) /\
  forall env' : Env,
    fst (jpeg_Encode env' img) = fst (jpeg_Encode env img) ->
    fst (png_Encode env' img) = fst (png_Encode env img) ->
    forall imgType, encodeImageToBase64 env' img imgType = encodeImageToBase64 env img imgType.
Proof.
  split; [reflexivity|]. split; [reflexivity|].
  intros env' Hj Hp imgType. unfold encodeImageToBase64. by rewrite Hj, Hp.
Qed.

(** An encoder that fails after writing two bytes: the caller receives the
    base64 text of these two bytes and no sign of the failure. *)
Example encodeImageToBase64_partial_write :
  let env := {|
    os_Open := os_Open bareEnv;
    png_decode_chunks := png_decode_chunks bareEnv;
    jpeg_Decode := jpeg_Decode bareEnv;
    jpeg_Encode := fun _ => ([255; 216], true);
    png_Encode := png_Encode bareEnv;
    resize_Resize := resize_Resize bareEnv;
    FontFace := FontFace bareEnv;
    gg_LoadFontFace := gg_LoadFontFace bareEnv;
    gg_DrawStringAnchored := gg_DrawStringAnchored bareEnv;
    Template := Template bareEnv;
    template_ParseFiles := template_ParseFiles bareEnv;
    template_Execute := template_Execute bareEnv;
    float_conv_unspecified := float_conv_unspecified bareEnv
  |} in
  snd (jpeg_Encode env (plain ZR red)) = true /\
  encodeImageToBase64 env (plain ZR red) "jpeg" = "/9g=".
Proof. split; reflexivity. Qed.

(* ===================================================================== *)
(** * The text watermark at opacity 0                                     *)
(* ===================================================================== *)

(** One step through [x ← c; k] once [c] is known. *)
Ltac step_bind := unfold mbind, Result_bind, orPanic; cbv beta iota.

Lemma eqb_zero (f : float64) : eqb f f_0 = true -> exists s, f = S754_zero s.
Proof.
  destruct f as [s|s| |s m e]; simpl; try discriminate; eauto.
  - by destruct s.
  - by destruct s.
Qed.

(** [uint8(255 * opacity)] is 0 when the opacity is 0 (or -0). *)
Lemma alpha_of_opacity0 (env : Env) (opacity : float64) :
  eqb opacity f_0 = true -> float_to_uint env 8 (mul f_255 opacity) = 0.
Proof.
  intros H. apply eqb_zero in H as [s ->]. reflexivity.
Qed.

(** With opacity 0 the text layer leaves no trace: the result is the buffer
    the base image was drawn into, for every base image and every text
    layer. *)
Lemma opacity0_adds_no_text (env : Env) (w : TextWatermark) (baseImage : Image) :
  eqb (Opacity (TextWatermark_Base w)) f_0 = true ->
  CreateWatermarkedImage env w baseImage =
    (_ ← CreateImage env w (of_Z (Dx (Bounds baseImage))) (of_Z (Dy (Bounds baseImage)));
     copyBase baseImage).
Proof.
  intros H0. unfold CreateWatermarkedImage, copyBase.
  destruct (CreateImage env w _ _) as [textImage|e]; [|done]. step_bind.
  destruct (NewRGBA (Bounds baseImage)) as [p0|e] eqn:E; [|done]. step_bind.
  rewrite alpha_of_opacity0 by done. f_equal.
  apply DrawMask_mask0; [|done].
  apply NewRGBA_wf in E as [Hwf _].
  by destruct (DrawMask_spec p0 (Bounds baseImage) baseImage ZP None ZP Hwf) as ([] & _).
Qed.

(** C4 (amended).  For a text watermark of opacity 0 and a base image whose
    bounds start at the origin: when [CreateImage] returns the text layer
    (its font loads and its canvas is allocated) and [image.NewRGBA] returns
    the buffer of the result, [CreateWatermarkedImage] returns a copy of the
    base image: the mask made from [255 * opacity] is fully transparent and
    the text layer adds nothing. *)
Theorem CreateWatermarkedImage_opacity0 (env : Env) (w : TextWatermark) (baseImage : Image)
    (textImage : Image) (buf : RGBA) :
  eqb (Opacity (TextWatermark_Base w)) f_0 = true ->
  CreateImage env w (of_Z (Dx (Bounds baseImage))) (of_Z (Dy (Bounds baseImage)))
    = Ok textImage ->
  NewRGBA (Bounds baseImage) = Ok buf ->
  Image_wf baseImage -> Min (Bounds baseImage) = ZP ->
  exists result,
    CreateWatermarkedImage env w baseImage = Ok result /\
    copyBase baseImage = Ok result /\
    RGBA_copy_of result baseImage.
Proof.
  intros H0 Htext Hbuf Hwf Hmin.
  rewrite opacity0_adds_no_text by done. rewrite Htext. step_bind.
  destruct (copyBase_Ok baseImage (NewRGBA_allocatable _ _ Hbuf)) as [p Hp].
  exists p. split; [done|]. split; [done|]. by apply copyBase_origin.
Qed.

Lemma Image_wf_plain r c : Rectangle_wf r -> Color_wf c -> Image_wf (plain r c).
Proof. intros Hr Hc. split; [done|]. intros x y. exact Hc. Qed.

Lemma Color_wf_color_RGBA r g b a :
  is_byte r -> is_byte g -> is_byte b -> is_byte a -> Color_wf (color_RGBA r g b a).
Proof. unfold is_byte, Color_wf, color_RGBA. simpl. lia. Qed.

Lemma Image_wf_square : Image_wf (square 2).
Proof.
  apply Image_wf_plain.
  - unfold Rectangle_wf. simpl. lia.
  - apply Color_wf_color_RGBA; unfold is_byte; lia.
Qed.

Lemma CreateWatermarkedImage_opacity0_witness :
  exists result,
    CreateWatermarkedImage (demoEnv demoFiles) invisibleText (square 2) = Ok result /\
    copyBase (square 2) = Ok result /\
    RGBA_copy_of result (square 2).
Proof.
  apply (CreateWatermarkedImage_opacity0 (demoEnv demoFiles) invisibleText (square 2)
           (plain (Rect_ 0 0 2 2) blue) (RGBA_ (replicate 16 0) 8 (Rect_ 0 0 2 2))).
  - reflexivity.
  - reflexivity.
  - reflexivity.
  - exact Image_wf_square.
  - reflexivity.
Defined.

(** The claim as it stands fails when the font cannot be loaded: the call
    panics although the opacity is 0, and returns no image at all. *)
Lemma CreateWatermarkedImage_opacity0_font_missing :
  eqb (Opacity (TextWatermark_Base invisibleText)) f_0 = true /\
  CreateWatermarkedImage bareEnv invisibleText (square 2)
    = Panic (FontLoadFailure "Nunito-Medium.ttf") /\
  ~ exists result,
      CreateWatermarkedImage bareEnv invisibleText (square 2) = Ok result /\
      RGBA_copy_of result (square 2).
Proof.
  split; [reflexivity|]. split; [reflexivity|].
  intros (result & H & _). discriminate H.
Qed.

(** Neither is an image returned when a buffer cannot be allocated: for a
    base with the bounds of [image.Uniform] the length [4 * Dx * Dy]
    overflows [int]; for one of 10^9 pixels a side it exceeds what [make]
    accepts. *)
Example NewRGBA_huge :
  NewRGBA (Bounds (Uniform red))
    = Panic (RuntimePanic "image: NewRGBA Rectangle has huge or negative dimensions") /\
  NewRGBA (Rect_ 0 0 1000000000 1000000000)
    = Panic (RuntimePanic "runtime error: makeslice: len out of range").
Proof. split; vm_compute; reflexivity. Qed.

Example watermark_huge_base :
  ApplyToImage (demoEnv demoFiles) noWatermark (Uniform red)
    = Panic (RuntimePanic "image: NewRGBA Rectangle has huge or negative dimensions") /\
  CreateWatermarkedImage (demoEnv demoFiles) invisibleText (Uniform red)
    = Panic (RuntimePanic "image: NewRGBA Rectangle has huge or negative dimensions").
Proof. split; vm_compute; reflexivity. Qed.

(** The canvas of the text layer can fail where the buffer of the result
    would not: an empty base image, 2^62 - 1 wide and of height 0, has a
    buffer of no bytes, but its width becomes 2^62 on the way through
    [float64], and four times that overflows. *)
Example CreateWatermarkedImage_wide_empty_base :
  let base := plain (Rect_ 0 0 (2 ^ 62 - 1) 0) red in
  NewRGBA (Bounds base) = Ok (RGBA_ [] (4 * (2 ^ 62 - 1)) (Bounds base)) /\
  canvasBounds (demoEnv demoFiles) (of_Z (Dx (Bounds base))) (of_Z (Dy (Bounds base)))
    = Rect_ 0 0 (2 ^ 62) 0 /\
  CreateWatermarkedImage (demoEnv demoFiles) invisibleText base
    = Panic (RuntimePanic "image: NewRGBA Rectangle has huge or negative dimensions").
Proof. cbv zeta. split; [|split]; vm_compute; reflexivity. Qed.

(** With bounds that do not start at the origin the base is not copied
    (the source point of [draw.Draw] is [image.Point{}], as in
    [ApplyToImage]): the opaque red pixel comes back transparent. *)
Example CreateWatermarkedImage_opacity0_shifted_base :
  RGBAModel (At subPixel 1 1) = (255, 0, 0, 255) /\
  CreateWatermarkedImage (demoEnv demoFiles) invisibleText subPixel
    = Ok (RGBA_ [0; 0; 0; 0] 4 (Rectangle_ (Pt 1 1) (Pt 2 2))).
Proof. split; vm_compute; reflexivity. Qed.

(* ===================================================================== *)
(** * The graphical watermark with an empty path                          *)
(* ===================================================================== *)

Lemma ApplyToImage_empty_path (env : Env) (w : Watermark) (baseImage : Image) :
  Path w = "" -> ApplyToImage env w baseImage = copyBase baseImage.
Proof.
  intros HP. unfold ApplyToImage, copyBase. rewrite HP. simpl.
  by destruct (NewRGBA (Bounds baseImage)).
Qed.

(** For base images whose bounds start at the origin (every decoded file is
    one) the empty path does give a copy, and nothing of the environment is
    consulted. *)
Lemma ApplyToImage_empty_path_origin (env : Env) (w : Watermark) (baseImage : Image) :
  Path w = "" -> Image_wf baseImage -> Min (Bounds baseImage) = ZP ->
  allocatable (Bounds baseImage) ->
  exists result,
    (forall env', ApplyToImage env' w baseImage = Ok result) /\
    RGBA_copy_of result baseImage.
Proof.
  intros HP Hwf Hmin Ha. destruct (copyBase_Ok baseImage Ha) as [p Hp].
  exists p. split; [intros env'; by rewrite ApplyToImage_empty_path|].
  by apply copyBase_origin.
Qed.

(** C5 (the code departs from the claim).  [draw.Draw] is given the source
    point [image.Point{}] instead of [bounds.Min].  For a base image whose
    bounds do not start at the origin the base is therefore drawn shifted,
    and here not at all: the base pixel is opaque red, (255, 0, 0, 255),
    the pixel returned is transparent black. *)
Theorem ApplyToImage_empty_path_shifted_base :
  Image_wf subPixel /\
  RGBAModel (At subPixel 1 1) = (255, 0, 0, 255) /\
  ApplyToImage bareEnv noWatermark subPixel
    = Ok (RGBA_ [0; 0; 0; 0] 4 (Rectangle_ (Pt 1 1) (Pt 2 2))) /\
  ~ exists result,
      ApplyToImage bareEnv noWatermark subPixel = Ok result /\
      RGBA_copy_of result subPixel.
Proof.
  split.
  { apply Image_wf_plain.
    - unfold Rectangle_wf. simpl. lia.
    - apply Color_wf_color_RGBA; unfold is_byte; lia. }
  split; [reflexivity|].
  assert (E : ApplyToImage bareEnv noWatermark subPixel
              = Ok (RGBA_ [0; 0; 0; 0] 4 (Rectangle_ (Pt 1 1) (Pt 2 2))))
    by (vm_compute; reflexivity).
  split; [exact E|].
  intros (result & H & _ & _ & _ & Hpix). rewrite E in H. injection H as <-.
  specialize (Hpix 1 1 eq_refl). vm_compute in Hpix. discriminate Hpix.
Qed.

(* ===================================================================== *)
(** * Placing and scaling the graphical watermark                         *)
(* ===================================================================== *)

Lemma eqb_empty_false (s : string) : s <> "" -> String.eqb s "" = false.
Proof. intros H. by destruct (String.eqb_spec s ""). Qed.

(** The path of [ApplyToImage] on which the watermark is drawn. *)
Lemma ApplyToImage_nonempty_path (env : Env) (w : Watermark) (baseImage : Image)
    (file : list Z) (wm0 : Image) (copy : RGBA) :
  Path w <> "" -> os_Open env (Path w) = Some file -> png_Decode env file = Some wm0 ->
  copyBase baseImage = Ok copy ->
  let wm := scaledWatermark env w wm0 in
  ApplyToImage env w baseImage =
    Ok (Draw copy (Rect_Add (Bounds wm) (centerOffset (Bounds baseImage) (Bounds wm))) wm ZP).
Proof.
  intros HP Hopen Hdec Hcopy. unfold ApplyToImage, copyBase in *.
  destruct (NewRGBA (Bounds baseImage)) as [p0|e]; [|discriminate Hcopy].
  revert Hcopy. step_bind. intros [= <-].
  rewrite (eqb_empty_false _ HP), Hopen. cbn [negb]. step_bind.
  rewrite Hdec. step_bind. reflexivity.
Qed.


Lemma Rectangle_wf_square n : 0 <= n -> Rectangle_wf (Bounds (square n)).
Proof.
  intros Hn. unfold Rectangle_wf, square, plain, Rect_. cbn [Bounds].
  destruct (n <? 0) eqn:E; [lia|]. simpl. lia.
Qed.



(** C6 (the code departs from the claim).  The offset of lines 83-86 is
    used as an absolute position, not as an offset from the base image:
    [bounds.Min] is left out.  For a base image of 4x4 whose bounds are
    (1,1)-(5,5) and a watermark of 2x2 the offset is (1, 1), so the
    watermark belongs at (2,2)-(4,4); it is drawn at (1,1)-(3,3), in the
    corner of the base: the pixel (1, 1) holds the watermark's blue, the
    pixel (3, 3) the base's red. *)
Theorem ApplyToImage_shifted_base_watermark_off_centre :
  let env := demoEnv demoFiles in
  let wm := scaledWatermark env logo (plain (Rect_ 0 0 2 2) blue) in
  let offset := centerOffset (Bounds subSquare) (Bounds wm) in
  Image_wf subSquare /\
  Bounds subSquare = Rectangle_ (Pt 1 1) (Pt 5 5) /\
  os_Open env (Path logo) = Some pngFile /\
  png_Decode env pngFile = Some (plain (Rect_ 0 0 2 2) blue) /\
  Bounds wm = Rectangle_ (Pt 0 0) (Pt 2 2) /\
  offset = Pt 1 1 /\
  RGBAModel (At wm 0 0) = (0, 0, 255, 255) /\
  exists result,
    ApplyToImage env logo subSquare = Ok result /\
    RGBA_pixel result 1 1 = (0, 0, 255, 255) /\
    RGBA_pixel result 3 3 = (255, 0, 0, 255) /\
    ~ (forall x y, Point_In x y (Bounds wm) = true ->
         RGBA_pixel result (X (Min (Bounds subSquare)) + X offset + x)
                           (Y (Min (Bounds subSquare)) + Y offset + y)
         = RGBAModel (At wm x y)).
Proof.
  cbv zeta.
  split.
  { apply Image_wf_plain.
    - unfold Rectangle_wf. simpl. lia.
    - apply Color_wf_color_RGBA; unfold is_byte; lia. }
  do 6 (split; [reflexivity|]).
  destruct (ApplyToImage (demoEnv demoFiles) logo subSquare) as [result|e] eqn:E;
    [|vm_compute in E; discriminate E].
  exists result. split; [reflexivity|].
  assert (H11 : RGBA_pixel result 1 1 = (0, 0, 255, 255)).
  { vm_compute in E. injection E as <-. vm_compute. reflexivity. }
  assert (H33 : RGBA_pixel result 3 3 = (255, 0, 0, 255)).
  { vm_compute in E. injection E as <-. vm_compute. reflexivity. }
  split; [exact H11|]. split; [exact H33|].
  intros H. specialize (H 1 1 eq_refl). vm_compute in H. vm_compute in H33.
  rewrite H33 in H. discriminate H.
Qed.

(** Farther from the origin the rectangle misses the result altogether:
    for a base with bounds (10,10)-(14,14) neither the base nor the
    watermark is drawn, and every byte returned is 0. *)
Example ApplyToImage_far_base_no_watermark :
  let base := plain (Rectangle_ (Pt 10 10) (Pt 14 14)) red in
  ApplyToImage (demoEnv demoFiles) logo base
    = Ok (RGBA_ (replicate 64 0) 16 (Rectangle_ (Pt 10 10) (Pt 14 14))).
Proof. vm_compute. reflexivity. Qed.

(** The scenario of the specification, and a watermark larger than the
    base: the offset is negative and rounds toward zero. *)
Example centerOffset_800x600 :
  centerOffset (Rect_ 0 0 800 600) (Rect_ 0 0 100 100) = Pt 350 250.
Proof. reflexivity. Qed.

Example centerOffset_negative :
  centerOffset (Rect_ 0 0 100 100) (Rect_ 0 0 301 300) = Pt (-100) (-100).
Proof. reflexivity. Qed.

Lemma ApplyToImage_Rect (env : Env) (w : Watermark) (baseImage : Image) (result : RGBA) :
  ApplyToImage env w baseImage = Ok result -> Rect result = Bounds baseImage.
Proof.
  unfold ApplyToImage.
  destruct (NewRGBA (Bounds baseImage)) as [p0|e] eqn:E; [|discriminate].
  apply NewRGBA_wf in E as [_ HR]. step_bind.
  destruct (negb (String.eqb (Path w) "")).
  - destruct (os_Open env (Path w)) as [file|]; [|discriminate]. step_bind.
    destruct (png_Decode env file) as [wm0|]; [|discriminate]. step_bind.
    intros [= <-]. unfold Draw.
    rewrite (proj1 (DrawMask_Rect _ _ _ _ _ _)), (proj1 (DrawMask_Rect _ _ _ _ _ _)).
    exact HR.
  - intros [= <-]. unfold Draw. by rewrite (proj1 (DrawMask_Rect _ _ _ _ _ _)).
Qed.



(** A watermark of 100x100 at scale 0.5 is resized to 50x50, one of 101x101
    to 50x50 as well (the conversion to [uint] truncates). *)
Example newWidth_half (env : Env) :
  float_to_uint env 64 (mul (of_Z 100) f_0_5) = 50 /\
  float_to_uint env 64 (mul (of_Z 101) f_0_5) = 50.
Proof. split; reflexivity. Qed.

(* ===================================================================== *)
(** * Decoding: PNG only for the watermark, any format for the bases      *)
(* ===================================================================== *)

Lemma jpeg_is_not_png (data : list Z) :
  has_prefix jpegMagic data = true -> has_prefix pngHeader data = false.
Proof.
  destruct data as [|b data]; [done|].
  unfold jpegMagic, pngHeader. cbn [has_prefix].
  destruct (255 =? b) eqn:E1; [|done]. intros _.
  destruct (137 =? b) eqn:E2; [lia|done].
Qed.

(* ===================================================================== *)
(** * The handler and the five kinds of failure                           *)
(* ===================================================================== *)

Lemma handleWatermarkedImages_stages (env : Env) (w : ResponseWriter) :
  handleWatermarkedImages env w =
    (images ← watermarkedImages env; Ok (renderTemplate env w images)).
Proof.
  unfold handleWatermarkedImages, watermarkedImages, renderTemplate.
  destruct (os_Open env "image.jpg") as [f1|]; [|done]. step_bind.
  destruct (image_Decode env f1) as [b1|]; [|done]. step_bind.
  destruct (ApplyToImage env _ b1) as [r1|]; [|done]. step_bind.
  destruct (os_Open env "zerkalo-ozera.jpg") as [f2|]; [|done]. step_bind.
  destruct (image_Decode env f2) as [b2|]; [|done]. step_bind.
  destruct (CreateWatermarkedImage env _ b2) as [r2|]; [|done]. step_bind.
  cbn [fst snd].
  destruct (template_ParseFiles env "templates/images.html") as [tmpl|]; [|done].
  destruct (template_Execute env tmpl _ _) as [chunks err].
  by destruct err.
Qed.

Lemma ApplyToImage_panics (env : Env) (w : Watermark) (baseImage : Image) (e : Failure) :
  ApplyToImage env w baseImage = Panic e -> propagates e = true.
Proof.
  unfold ApplyToImage.
  destruct (NewRGBA (Bounds baseImage)) as [p0|e0] eqn:E.
  2:{ intros [= <-]. by apply NewRGBA_panic_kinds in E as [msg ->]. }
  step_bind. destruct (negb (String.eqb (Path w) "")); [|discriminate].
  destruct (os_Open env (Path w)) as [file|]; [|by intros [= <-]]. step_bind.
  destruct (png_Decode env file) as [wm0|]; [|by intros [= <-]]. discriminate.
Qed.

Lemma CreateWatermarkedImage_panics (env : Env) (w : TextWatermark) (baseImage : Image)
    (e : Failure) :
  CreateWatermarkedImage env w baseImage = Panic e -> propagates e = true.
Proof.
  unfold CreateWatermarkedImage, CreateImage.
  destruct (NewRGBA (canvasBounds env _ _)) as [dc|e0] eqn:Ec.
  2:{ intros [= <-]. by apply NewRGBA_panic_kinds in Ec as [msg ->]. }
  step_bind.
  destruct (gg_LoadFontFace env _ _) as [face|]; [|by intros [= <-]]. step_bind.
  destruct (gg_DrawStringAnchored env _ _ _ _ _ _ _ _ _ _ _ _) as [textImage|msg];
    [|by intros [= <-]].
  cbn [orRuntimePanic]. step_bind.
  destruct (NewRGBA (Bounds baseImage)) as [p0|e0] eqn:E.
  2:{ intros [= <-]. by apply NewRGBA_panic_kinds in E as [msg ->]. }
  discriminate.
Qed.

(** No template failure ever leaves the handler as a panic. *)
Lemma handleWatermarkedImages_panics (env : Env) (w : ResponseWriter) (e : Failure) :
  handleWatermarkedImages env w = Panic e -> propagates e = true.
Proof.
  rewrite handleWatermarkedImages_stages. unfold watermarkedImages.
  destruct (os_Open env "image.jpg") as [f1|]; [|by intros [= <-]]. step_bind.
  destruct (image_Decode env f1) as [b1|]; [|by intros [= <-]]. step_bind.
  destruct (ApplyToImage env _ b1) as [r1|e1] eqn:E1;
    [|intros [= <-]; by apply ApplyToImage_panics in E1]. step_bind.
  destruct (os_Open env "zerkalo-ozera.jpg") as [f2|]; [|by intros [= <-]]. step_bind.
  destruct (image_Decode env f2) as [b2|]; [|by intros [= <-]]. step_bind.
  destruct (CreateWatermarkedImage env _ b2) as [r2|e2] eqn:E2;
    [|intros [= <-]; by apply CreateWatermarkedImage_panics in E2]. step_bind.
  discriminate.
Qed.

(** A missing file, an undecodable file and a font that does not load each
    abort the request. *)
Lemma handleWatermarkedImages_resource_not_found (env : Env) (w : ResponseWriter) :
  os_Open env "image.jpg" = None ->
  handleWatermarkedImages env w = Panic (ResourceNotFound "image.jpg").
Proof. intros H. unfold handleWatermarkedImages. by rewrite H. Qed.

Lemma handleWatermarkedImages_decode_failure (env : Env) (w : ResponseWriter) file :
  os_Open env "image.jpg" = Some file -> image_Decode env file = None ->
  handleWatermarkedImages env w = Panic (DecodeFailure "image.jpg").
Proof. intros H1 H2. unfold handleWatermarkedImages. rewrite H1. step_bind. by rewrite H2. Qed.

Lemma ApplyToImage_resource_not_found (env : Env) (w : Watermark) (baseImage : Image) :
  allocatable (Bounds baseImage) -> Path w <> "" -> os_Open env (Path w) = None ->
  ApplyToImage env w baseImage = Panic (ResourceNotFound (Path w)).
Proof.
  intros Hwf HP Hopen. unfold ApplyToImage. rewrite (NewRGBA_Ok _ Hwf). step_bind.
  by rewrite (eqb_empty_false _ HP), Hopen.
Qed.

Lemma CreateWatermarkedImage_font_failure (env : Env) (w : TextWatermark) (baseImage : Image) :
  allocatable (canvasBounds env (of_Z (Dx (Bounds baseImage))) (of_Z (Dy (Bounds baseImage)))) ->
  gg_LoadFontFace env (Font (TextWatermark_Base w)) (Size (TextWatermark_Base w)) = None ->
  CreateWatermarkedImage env w baseImage
    = Panic (FontLoadFailure (Font (TextWatermark_Base w))).
Proof.
  intros Ha H. unfold CreateWatermarkedImage, CreateImage.
  rewrite (NewRGBA_Ok _ Ha). step_bind. by rewrite H.
Qed.

(** A template that cannot be loaded: status 500 and the fixed message. *)
Lemma handleWatermarkedImages_template_load_failure (env : Env) images :
  watermarkedImages env = Ok images ->
  template_ParseFiles env "templates/images.html" = None ->
  exists w', handleWatermarkedImages env newResponse = Ok w' /\
             status w' = 500 /\ body w' = "Error loading template" +:+ newline.
Proof.
  intros Himg Hparse. rewrite handleWatermarkedImages_stages, Himg. step_bind.
  unfold renderTemplate. rewrite Hparse. eexists. split; [reflexivity|]. done.
Qed.

Lemma sent_Write c w s : sent w = Some s -> sent (Write c w) = Some s.
Proof. intros H. unfold Write, WriteHeader. by rewrite H. Qed.

Lemma sent_Write_fresh c w : sent w = None -> sent (Write c w) = Some (200, Header w).
Proof. intros H. unfold Write, WriteHeader. by rewrite H. Qed.

Lemma sent_foldl_Write chunks w s :
  sent w = Some s -> sent (foldl (fun w chunk => Write chunk w) w chunks) = Some s.
Proof.
  revert w. induction chunks as [|c chunks IH]; intros w H; simpl; [done|].
  apply IH. by apply sent_Write.
Qed.

Lemma sent_http_Error w msg code s : sent w = Some s -> sent (http_Error w msg code) = Some s.
Proof.
  intros H. unfold http_Error. apply sent_Write.
  unfold WriteHeader, Header_Set, Header_Del. simpl. by rewrite H.
Qed.

(** A template whose execution fails before it wrote anything: status 500
    and the fixed message. *)
Lemma handleWatermarkedImages_exec_failure_no_output (env : Env) images tmpl :
  watermarkedImages env = Ok images ->
  template_ParseFiles env "templates/images.html" = Some tmpl ->
  template_Execute env tmpl (fst images) (snd images) = ([], true) ->
  exists w', handleWatermarkedImages env newResponse = Ok w' /\
             status w' = 500 /\ body w' = "Error executing template" +:+ newline.
Proof.
  intros Himg Hparse Hexec. rewrite handleWatermarkedImages_stages, Himg. step_bind.
  unfold renderTemplate. rewrite Hparse, Hexec. eexists. split; [reflexivity|]. done.
Qed.

(** A template whose execution fails after it wrote something: the status
    line [200 OK] is out already, and [http.Error] cannot replace it. *)
Lemma handleWatermarkedImages_exec_failure_after_output (env : Env) images tmpl c chunks :
  watermarkedImages env = Ok images ->
  template_ParseFiles env "templates/images.html" = Some tmpl ->
  template_Execute env tmpl (fst images) (snd images) = (c :: chunks, true) ->
  exists w', handleWatermarkedImages env newResponse = Ok w' /\ status w' = 200.
Proof.
  intros Himg Hparse Hexec. rewrite handleWatermarkedImages_stages, Himg. step_bind.
  unfold renderTemplate. rewrite Hparse, Hexec. eexists. split; [reflexivity|].
  unfold status. cbn [foldl].
  rewrite (sent_http_Error _ _ _ (200, Header (Header_Set "Content-Type"
             "text/html; charset=utf-8" newResponse))); [reflexivity|].
  apply sent_foldl_Write. by apply sent_Write_fresh.
Qed.

(** C8 (the code departs from the claim).  A missing file, a file that
    does not decode and a font that does not load do abort the request, and
    a template that fails to load, or fails before its first output, does
    give status 500 with the fixed message.  But a template whose execution
    fails after its first output is not turned into a 500 response: the
    client receives status 200, the partial output, and the message
    appended to it. *)
Theorem handleWatermarkedImages_exec_failure_status_200 :
  exists w',
    handleWatermarkedImages failingTemplateEnv newResponse = Ok w' /\
    status w' = 200 /\
    status w' <> StatusInternalServerError /\
    body w' = "<html>Error executing template" +:+ newline.
Proof.
  eexists. split; [vm_compute; reflexivity|].
  split; [reflexivity|]. split; [discriminate|reflexivity].
Qed.

(* ===================================================================== *)
(** * Byte for byte                                                       *)
(* ===================================================================== *)

(** A well-formed buffer is determined by its rectangle and its pixels. *)
Lemma RGBA_ext (p q : RGBA) :
  RGBA_wf p -> RGBA_wf q -> Rect p = Rect q ->
  (forall x y, Point_In x y (Rect p) = true -> RGBA_pixel p x y = RGBA_pixel q x y) ->
  p = q.
Proof.
  destruct p as [pp sp rp], q as [pq sq rq].
  intros [Hr1 Hs1 Hl1 _] [_ Hs2 Hl2 _] HR Hpix. simpl in *. subst rq.
  rewrite Hs1, <- Hs2. f_equal.
  apply (list_eq_same_length _ _ (length pp)); [lia|done|].
  intros i a b Hi Ha Hb.
  set (W := Dx rp) in *. set (H := Dy rp) in *.
  assert (HW : 0 < W /\ 0 < H).
  { destruct Hr1 as [? ?]. unfold W, H, Dx, Dy in *. nia. }
  set (k := Z.of_nat i / 4).
  assert (Hk : 0 <= k < W * H) by (unfold k; nia).
  set (x := X (Min rp) + k mod W). set (y := Y (Min rp) + k / W).
  assert (Hin : Point_In x y rp = true).
  { apply Point_In_spec. unfold x, y, W, H, Dx, Dy in *.
    assert (0 <= k mod (X (Max rp) - X (Min rp)) < X (Max rp) - X (Min rp))
      by (apply Z.mod_pos_bound; lia).
    assert (0 <= k / (X (Max rp) - X (Min rp)) < Y (Max rp) - Y (Min rp)).
    { split; [apply Z.div_pos; lia|]. apply Z.div_lt_upper_bound; [lia|nia]. }
    lia. }
  specialize (Hpix x y Hin). unfold RGBA_pixel, PixOffset in Hpix. simpl in Hpix.
  rewrite Hs1, Hs2 in Hpix. fold W in Hpix.
  assert (Hoff : (y - Y (Min rp)) * (4 * W) + (x - X (Min rp)) * 4 = 4 * k).
  { unfold x, y. pose proof (Z.div_mod k W ltac:(lia)). nia. }
  rewrite Hoff in Hpix. unfold pixel_at in Hpix.
  injection Hpix as H0 H1 H2 H3.
  assert (Hc : Z.of_nat i = 4 * k \/ Z.of_nat i = 4 * k + 1 \/
               Z.of_nat i = 4 * k + 2 \/ Z.of_nat i = 4 * k + 3) by (unfold k; lia).
  assert (Hget : forall (l : list Z) v, l !! i = Some v -> byte_at l (Z.of_nat i) = v).
  { intros l v Hv. unfold byte_at. by rewrite Nat2Z.id, Hv. }
  rewrite <- (Hget pp a Ha), <- (Hget pq b Hb).
  destruct Hc as [-> | [-> | [-> | ->]]]; done.
Qed.

Lemma Image_wf_of_RGBA (b : RGBA) : RGBA_wf b -> Image_wf (Image_of_RGBA b).
Proof.
  intros [Hr _ _ Hb]. split; [exact Hr|]. intros x y. simpl. unfold RGBA_At.
  destruct (Point_In x y (Rect b)); [|unfold Color_wf; simpl; lia].
  unfold RGBA_pixel, pixel_at.
  apply Color_wf_color_RGBA; by apply byte_at_is_byte.
Qed.

Lemma RGBAModel_color_RGBA r g b a :
  is_byte r -> is_byte g -> is_byte b -> is_byte a ->
  RGBAModel (color_RGBA r g b a) = (r, g, b, a).
Proof.
  unfold is_byte, RGBAModel, color_RGBA. intros. simpl.
  rewrite !Z.shiftr_div_pow2 by lia. change (2 ^ 8) with 256.
  repeat f_equal; lia.
Qed.

(** When the base image is itself an [image.RGBA] with packed rows and
    bounds at the origin, the buffer of lines 60-62 equals it byte for
    byte. *)
Lemma copyBase_RGBA (b : RGBA) :
  RGBA_wf b -> Min (Rect b) = ZP -> allocatable (Rect b) ->
  copyBase (Image_of_RGBA b) = Ok b.
Proof.
  intros Hwf Hmin Ha.
  destruct (copyBase_Ok (Image_of_RGBA b) Ha) as [p Hp].
  rewrite Hp. f_equal.
  pose proof (copyBase_wf _ _ Hp) as [Hpwf HpR].
  pose proof (copyBase_origin _ _ (Image_wf_of_RGBA b Hwf) Hmin Hp) as (_ & _ & _ & Hpix).
  apply RGBA_ext; [done|done|done|].
  intros x y Hin. rewrite HpR in Hin. rewrite Hpix by done.
  simpl in *. unfold RGBA_At. rewrite Hin.
  unfold RGBA_pixel at 1, pixel_at.
  rewrite RGBAModel_color_RGBA by (apply byte_at_is_byte, (wf_bytes _ Hwf)).
  reflexivity.
Qed.

(** So an empty path, and a text of opacity 0, return such a base image
    unchanged in every byte. *)
Corollary ApplyToImage_empty_path_RGBA (env : Env) (w : Watermark) (b : RGBA) :
  Path w = "" -> RGBA_wf b -> Min (Rect b) = ZP -> allocatable (Rect b) ->
  ApplyToImage env w (Image_of_RGBA b) = Ok b.
Proof.
  intros HP Hwf Hmin Ha. rewrite ApplyToImage_empty_path by done. by apply copyBase_RGBA.
Qed.

Corollary opacity0_returns_RGBA_unchanged (env : Env) (w : TextWatermark) (b : RGBA)
    (textImage : Image) :
  eqb (Opacity (TextWatermark_Base w)) f_0 = true ->
  CreateImage env w (of_Z (Dx (Rect b))) (of_Z (Dy (Rect b))) = Ok textImage ->
  RGBA_wf b -> Min (Rect b) = ZP -> allocatable (Rect b) ->
  CreateWatermarkedImage env w (Image_of_RGBA b) = Ok b.
Proof.
  intros H0 Htext Hwf Hmin Ha.
  rewrite opacity0_adds_no_text by done.
  change (Bounds (Image_of_RGBA b)) with (Rect b). rewrite Htext. step_bind.
  by apply copyBase_RGBA.
Qed.

(* ===================================================================== *)
(** * When the two watermark functions return, and what they return      *)
(* ===================================================================== *)

Lemma DrawMask_wf dst r src sp mask mp :
  RGBA_wf dst -> RGBA_wf (DrawMask dst r src sp mask mp).
Proof. intros Hwf. by destruct (DrawMask_spec dst r src sp mask mp Hwf) as (? & _). Qed.

Lemma NewRGBA_Panic r :
  ~ Rectangle_wf r ->
  NewRGBA r = Panic (RuntimePanic "image: NewRGBA Rectangle has huge or negative dimensions").
Proof.
  intros H. unfold NewRGBA. rewrite mul3NonNeg_4.
  replace ((0 <=? Dx r) && (Dx r <? 2 ^ 62) && (0 <=? Dy r) && (4 * Dx r * Dy r <? 2 ^ 63))
    with false; [reflexivity|].
  symmetry. apply not_true_is_false. intros E. apply H.
  unfold Rectangle_wf, Dx, Dy in *. lia.
Qed.

Lemma Rectangle_wf_dec r : Rectangle_wf r \/ ~ Rectangle_wf r.
Proof. unfold Rectangle_wf. lia. Qed.

Lemma ApplyToImage_wf (env : Env) (w : Watermark) (baseImage : Image) (result : RGBA) :
  ApplyToImage env w baseImage = Ok result ->
  RGBA_wf result /\ Rect result = Bounds baseImage.
Proof.
  intros H. split; [|by apply (ApplyToImage_Rect env w)].
  revert H. unfold ApplyToImage.
  destruct (NewRGBA (Bounds baseImage)) as [p0|e] eqn:E; [|discriminate].
  apply NewRGBA_wf in E as [Hwf _]. step_bind.
  destruct (negb (String.eqb (Path w) "")).
  - destruct (os_Open env (Path w)) as [file|]; [|discriminate]. step_bind.
    destruct (png_Decode env file) as [wm0|]; [|discriminate]. step_bind.
    intros [= <-]. unfold Draw. by do 2 apply DrawMask_wf.
  - intros [= <-]. unfold Draw. by apply DrawMask_wf.
Qed.


Lemma ApplyToImage_allocatable (env : Env) (w : Watermark) (baseImage : Image)
    (result : RGBA) :
  ApplyToImage env w baseImage = Ok result -> allocatable (Bounds baseImage).
Proof.
  unfold ApplyToImage.
  destruct (NewRGBA (Bounds baseImage)) as [p0|e] eqn:E; [|discriminate].
  intros _. by apply NewRGBA_allocatable in E.
Qed.

Lemma CreateWatermarkedImage_allocatable (env : Env) (w : TextWatermark) (baseImage : Image)
    (result : RGBA) :
  CreateWatermarkedImage env w baseImage = Ok result -> allocatable (Bounds baseImage).
Proof.
  unfold CreateWatermarkedImage.
  destruct (CreateImage env w _ _) as [textImage|e]; [|discriminate]. step_bind.
  destruct (NewRGBA (Bounds baseImage)) as [p0|e] eqn:E; [|discriminate].
  intros _. by apply NewRGBA_allocatable in E.
Qed.


(** X2.  [CreateWatermarkedImage] returns an image exactly when
    [CreateImage] returns the text layer and [image.NewRGBA] returns the
    buffer of the result.  The text layer comes first: a panic of
    [CreateImage] is the panic of the call, whatever the base image's own
    bounds.  Inside [CreateImage] the canvas is allocated before the font
    is loaded: a canvas that cannot be allocated panics first, then a font
    that does not load; a text layer is returned only when both
    succeeded. *)
Theorem CreateWatermarkedImage_returns_iff (env : Env) (w : TextWatermark) (baseImage : Image) :
  let width := of_Z (Dx (Bounds baseImage)) in
  let height := of_Z (Dy (Bounds baseImage)) in
  let font :=
    gg_LoadFontFace env (Font (TextWatermark_Base w)) (Size (TextWatermark_Base w)) in
  ((exists result, CreateWatermarkedImage env w baseImage = Ok result) <->
   (exists textImage, CreateImage env w width height = Ok textImage) /\
   (exists buf, NewRGBA (Bounds baseImage) = Ok buf)) /\
  (forall e, CreateImage env w width height = Panic e ->
     CreateWatermarkedImage env w baseImage = Panic e) /\
  (forall textImage e, CreateImage env w width height = Ok textImage ->
     NewRGBA (Bounds baseImage) = Panic e ->
     CreateWatermarkedImage env w baseImage = Panic e) /\
  (forall e, NewRGBA (canvasBounds env width height) = Panic e ->
     CreateImage env w width height = Panic e) /\
  (forall dc, NewRGBA (canvasBounds env width height) = Ok dc -> font = None ->
     CreateImage env w width height = Panic (FontLoadFailure (Font (TextWatermark_Base w)))) /\
  (forall textImage, CreateImage env w width height = Ok textImage ->
     (exists dc, NewRGBA (canvasBounds env width height) = Ok dc) /\
     (exists face, font = Some face)).
Proof.
  intros width height font. subst font.
  split; [split|split; [|split; [|split; [|split]]]].
  - intros [result H]. revert H. unfold CreateWatermarkedImage. fold width height.
    destruct (CreateImage env w width height) as [textImage|e]; [|discriminate]. step_bind.
    destruct (NewRGBA (Bounds baseImage)) as [p0|e] eqn:E; [|discriminate].
    intros _. split; [by exists textImage|by exists p0].
  - intros ([textImage Htext] & [buf Hbuf]).
    unfold CreateWatermarkedImage. fold width height.
    rewrite Htext. step_bind. rewrite Hbuf. step_bind. eauto.
  - intros e Htext. unfold CreateWatermarkedImage. fold width height. by rewrite Htext.
  - intros textImage e Htext Hbuf. unfold CreateWatermarkedImage. fold width height.
    rewrite Htext. step_bind. by rewrite Hbuf.
  - intros e Hc. unfold CreateImage. by rewrite Hc.
  - intros dc Hdc Hfont. unfold CreateImage. rewrite Hdc. step_bind. by rewrite Hfont.
  - intros textImage. unfold CreateImage.
    destruct (NewRGBA (canvasBounds env width height)) as [dc|e]; [|discriminate]. step_bind.
    destruct (gg_LoadFontFace env _ _) as [face|]; [|discriminate]. intros _.
    split; [by exists dc|by exists face].
Qed.



(* ===================================================================== *)
(** * Pixels of the watermarked images                                    *)
(* ===================================================================== *)

Lemma over_pixel_transparent d ma :
  is_byte (d.1.1.1) -> is_byte (d.1.1.2) -> is_byte (d.1.2) -> is_byte (d.2) ->
  over_pixel d (Color_ 0 0 0 0) ma = d.
Proof.
  destruct d as [[[dr dg] db] da]. simpl. intros Hr Hg Hb Ha.
  assert (E : forall c, is_byte c -> over_channel c 0 (over_alpha 0 ma) ma = c).
  { intros c Hc. unfold over_alpha, over_channel, u8, u32, m16, is_byte in *.
    rewrite !Z.mul_0_l. change (0 mod 4294967296) with 0.
    change (0 / 65535) with 0. rewrite Z.sub_0_r, Z.add_0_r.
    change (65535 mod 4294967296 * 257) with 16842495.
    change (16842495 mod 4294967296) with 16842495.
    rewrite Z.mod_mod by lia. rewrite (Z.mod_small (c * 16842495)) by lia.
    replace (c * 16842495) with (c * 257 * 65535) by lia.
    rewrite Z.div_mul by lia. rewrite Z.shiftr_div_pow2 by lia.
    change (2 ^ 8) with 256. lia. }
  by rewrite !E.
Qed.



(** An alpha byte of 255 stays 255 under any source and any mask. *)
Lemma over_channel_alpha_255 sa ma :
  0 <= sa <= 65535 -> 0 <= ma <= 65535 ->
  over_channel 255 sa (over_alpha sa ma) ma = 255.
Proof.
  intros Hs Hm. unfold over_alpha, over_channel, u8, u32, m16.
  assert (Hp : 0 <= sa * ma <= 65535 * 65535) by nia.
  revert Hp. generalize (sa * ma). intros p Hp.
  rewrite (Z.mod_small p) by lia.
  assert (Hq : 0 <= p / 65535 <= 65535) by lia.
  rewrite (Z.mod_small (65535 - p / 65535)) by lia.
  rewrite (Z.mod_small ((65535 - p / 65535) * 257)) by lia.
  rewrite (Z.mod_small (255 * _)) by lia.
  rewrite (Z.mod_small (_ + p)) by lia.
  rewrite Z.shiftr_div_pow2 by lia. change (2 ^ 8) with 256. lia.
Qed.

Lemma pixel_alpha_over_pixel d s ma :
  pixel_alpha d = 255 -> Color_wf s -> 0 <= ma <= 65535 ->
  pixel_alpha (over_pixel d s ma) = 255.
Proof.
  destruct d as [[[dr dg] db] da]. simpl. intros -> (_ & _ & _ & Ha) Hm.
  by apply over_channel_alpha_255.
Qed.

Lemma RGBA_pixel_is_byte p x y :
  Forall is_byte (Pix p) ->
  is_byte (RGBA_pixel p x y).1.1.1 /\ is_byte (RGBA_pixel p x y).1.1.2 /\
  is_byte (RGBA_pixel p x y).1.2 /\ is_byte (RGBA_pixel p x y).2.
Proof. intros H. unfold RGBA_pixel, pixel_at. simpl. repeat split; by apply byte_at_is_byte. Qed.

(** The second [draw.Draw] of [ApplyToImage], pixel by pixel, for a
    watermark whose bounds start at the origin. *)
Lemma Draw_watermark_pixels (copy : RGBA) (wm : Image) (offset : Point) x y :
  RGBA_wf copy -> Min (Bounds wm) = ZP -> Point_In x y (Rect copy) = true ->
  RGBA_pixel (Draw copy (Rect_Add (Bounds wm) offset) wm ZP) x y =
    if Point_In (x - X offset) (y - Y offset) (Bounds wm)
    then over_pixel (RGBA_pixel copy x y) (At wm (x - X offset) (y - Y offset)) m16
    else RGBA_pixel copy x y.
Proof.
  intros Hwf Hmin Hin.
  destruct (DrawMask_spec copy (Rect_Add (Bounds wm) offset) wm ZP None ZP Hwf)
    as (_ & _ & Hpix).
  unfold Draw. rewrite Hpix by done. unfold drawn, blend. rewrite Hin.
  assert (E1 : Point_In x y (Rect_Add (Bounds wm) offset) =
               Point_In (x - X offset) (y - Y offset) (Bounds wm)).
  { unfold Point_In, Rect_Add. cbn [Min Max Point_Add X Y].
    apply eq_true_iff_eq. rewrite !andb_true_iff. lia. }
  assert (E2 : Point_In x y (Rect_Add (Bounds wm) (Point_Sub (Min (Rect_Add (Bounds wm) offset)) ZP)) =
               Point_In (x - X offset) (y - Y offset) (Bounds wm)).
  { unfold Point_In, Rect_Add, Point_Sub. cbn [Min Max Point_Add X Y]. rewrite Hmin.
    cbn [X Y ZP]. apply eq_true_iff_eq. rewrite !andb_true_iff. lia. }
  rewrite E1, E2, !andb_true_r, andb_diag.
  unfold Rect_Add. cbn [Min Point_Add X Y]. rewrite Hmin. cbn [X Y ZP].
  replace (0 + x - (0 + X offset)) with (x - X offset) by lia.
  replace (0 + y - (0 + Y offset)) with (y - Y offset) by lia.
  reflexivity.
Qed.



(** X5.  If the base image is opaque (and its bounds start at the origin),
    every pixel of the image returned by [ApplyToImage] is opaque too,
    whatever the watermark: the alpha byte stays 255. *)
Theorem ApplyToImage_keeps_opaque (env : Env) (w : Watermark) (baseImage : Image)
    (result : RGBA) (x y : Z) :
  Image_wf baseImage -> Min (Bounds baseImage) = ZP -> opaque baseImage ->
  (forall file wm0, os_Open env (Path w) = Some file -> png_Decode env file = Some wm0 ->
     Min (Bounds (scaledWatermark env w wm0)) = ZP /\ Image_wf (scaledWatermark env w wm0)) ->
  ApplyToImage env w baseImage = Ok result ->
  Point_In x y (Bounds baseImage) = true ->
  pixel_alpha (RGBA_pixel result x y) = 255.
Proof.
  intros Hwf Hmin Hop Hwm Hres Hin.
  destruct (copyBase_Ok baseImage (ApplyToImage_allocatable _ _ _ _ Hres)) as [copy Hcopy].
  pose proof (copyBase_wf _ _ Hcopy) as [Hcwf HcR].
  pose proof (copyBase_origin _ _ Hwf Hmin Hcopy) as (_ & _ & _ & Hpix).
  assert (Hc : pixel_alpha (RGBA_pixel copy x y) = 255).
  { rewrite Hpix by done. unfold RGBAModel. simpl. by rewrite Hop. }
  destruct (String.eqb_spec (Path w) "") as [HP|HP].
  - rewrite ApplyToImage_empty_path in Hres by done. congruence.
  - pose proof Hres as Hres'. revert Hres'. unfold ApplyToImage.
    destruct (NewRGBA (Bounds baseImage)) as [p0|e]; [|discriminate]. step_bind.
    rewrite (eqb_empty_false _ HP). cbn [negb].
    destruct (os_Open env (Path w)) as [file|] eqn:Hopen; [|discriminate]. step_bind.
    destruct (png_Decode env file) as [wm0|] eqn:Hdec; [|discriminate]. intros _.
    destruct (Hwm file wm0 eq_refl Hdec) as [Hwmin Hwwf].
    rewrite (ApplyToImage_nonempty_path env w baseImage file wm0 copy) in Hres by done.
    injection Hres as <-.
    rewrite Draw_watermark_pixels by (try done; by rewrite HcR).
    match goal with |- context [if ?c then _ else _] => destruct c end; [|done].
    apply pixel_alpha_over_pixel; [done|apply Hwwf|unfold m16; lia].
Qed.

Lemma ApplyToImage_keeps_opaque_witness :
  exists result,
    ApplyToImage (demoEnv demoFiles) logo (square 4) = Ok result /\
    pixel_alpha (RGBA_pixel result 2 2) = 255.
Proof.
  destruct (ApplyToImage (demoEnv demoFiles) logo (square 4)) as [result|e] eqn:E;
    [|vm_compute in E; discriminate E].
  exists result. split; [reflexivity|].
  apply (ApplyToImage_keeps_opaque (demoEnv demoFiles) logo (square 4) result 2 2).
  - apply Image_wf_plain.
    + apply (Rectangle_wf_square 4). lia.
    + apply Color_wf_color_RGBA; unfold is_byte; lia.
  - reflexivity.
  - intros u v. reflexivity.
  - intros file wm0 _ Hdec. unfold png_Decode in Hdec.
    destruct (has_prefix pngHeader file); [|discriminate Hdec].
    injection Hdec as <-. split; [reflexivity|].
    apply Image_wf_plain.
    + unfold Rectangle_wf. simpl. lia.
    + apply Color_wf_color_RGBA; unfold is_byte; lia.
  - exact E.
  - reflexivity.
Defined.

Lemma maskAlpha_range (env : Env) (w : TextWatermark) : 0 <= maskAlpha env w < 256.
Proof.
  unfold maskAlpha, float_to_uint. change (2 ^ 8) with 256.
  destruct (trunc _) as [z|].
  - destruct ((0 <=? z) && (z <? 256)) eqn:E; [lia|].
    apply Z.mod_pos_bound. lia.
  - apply Z.mod_pos_bound. lia.
Qed.

(** Lines 97-102 with the text layer and the base copy named. *)
Lemma CreateWatermarkedImage_steps (env : Env) (w : TextWatermark) (baseImage : Image)
    (textImage : Image) (copy : RGBA) :
  CreateImage env w (of_Z (Dx (Bounds baseImage))) (of_Z (Dy (Bounds baseImage)))
    = Ok textImage ->
  copyBase baseImage = Ok copy ->
  CreateWatermarkedImage env w baseImage =
    Ok (DrawMask copy (Rect copy) textImage ZP
          (Some (Uniform (color_Alpha (maskAlpha env w)))) ZP).
Proof.
  intros Htext Hcopy. unfold CreateWatermarkedImage, copyBase in *. rewrite Htext. step_bind.
  destruct (NewRGBA (Bounds baseImage)) as [p0|e]; [|discriminate Hcopy].
  revert Hcopy. step_bind. by intros [= <-].
Qed.

(** The masked [draw.DrawMask] of line 102, pixel by pixel. *)
Lemma DrawMask_text_pixels (copy : RGBA) (textImage : Image) (alpha : Z) x y :
  RGBA_wf copy -> Point_In x y (Rect copy) = true ->
  exists covered : bool,
    (Dx (Rect copy) <= 1000000000 -> Dy (Rect copy) <= 1000000000 ->
     covered = Point_In (x - X (Min (Rect copy))) (y - Y (Min (Rect copy))) (Bounds textImage)) /\
    RGBA_pixel (DrawMask copy (Rect copy) textImage ZP
                  (Some (Uniform (color_Alpha alpha))) ZP) x y =
      if covered
      then over_pixel (RGBA_pixel copy x y)
             (At textImage (x - X (Min (Rect copy))) (y - Y (Min (Rect copy))))
             (alpha * 257)
      else RGBA_pixel copy x y.
Proof.
  intros Hwf Hin.
  destruct (DrawMask_spec copy (Rect copy) textImage ZP
              (Some (Uniform (color_Alpha alpha))) ZP Hwf) as (_ & _ & Hpix).
  exists (drawn copy (Rect copy) textImage ZP (Some (Uniform (color_Alpha alpha))) ZP x y).
  split.
  - intros Hdx Hdy. unfold drawn. rewrite Hin. cbn [andb].
    pose proof Hin as Hin'. apply Point_In_spec in Hin'. unfold Dx, Dy in *.
    assert (E : Point_In x y (Rect_Add (Bounds (Uniform (color_Alpha alpha)))
                                (Point_Sub (Min (Rect copy)) ZP)) = true).
    { apply Point_In_spec. simpl. lia. }
    rewrite E, andb_true_r.
    unfold Point_In, Rect_Add, Point_Sub. cbn [Min Max Point_Add X Y ZP].
    apply eq_true_iff_eq. rewrite !andb_true_iff. lia.
  - rewrite Hpix by done. unfold blend. cbn [X Y ZP At Uniform color_Alpha cA].
    replace (0 + x - X (Min (Rect copy))) with (x - X (Min (Rect copy))) by lia.
    replace (0 + y - Y (Min (Rect copy))) with (y - Y (Min (Rect copy))) by lia.
    reflexivity.
Qed.

(** X6.  [CreateWatermarkedImage] lays the text layer with its corner on
    the base image's corner and blends it with one alpha for the whole
    layer, [uint8(255 * Opacity)]: once the text layer and the buffer of
    the result exist, the call returns, and a pixel the layer covers is the
    layer's pixel composed over the base copy through that alpha, any other
    pixel is the base copy's.  (Images of up to 10^9 pixels a side; the
    uniform mask of the library ends there.) *)
Theorem CreateWatermarkedImage_blends_uniformly (env : Env) (w : TextWatermark)
    (baseImage : Image) (textImage : Image) (copy : RGBA) :
  CreateImage env w (of_Z (Dx (Bounds baseImage))) (of_Z (Dy (Bounds baseImage)))
    = Ok textImage ->
  copyBase baseImage = Ok copy ->
  Dx (Bounds baseImage) <= 1000000000 -> Dy (Bounds baseImage) <= 1000000000 ->
  exists result,
    CreateWatermarkedImage env w baseImage = Ok result /\
    forall x y, Point_In x y (Bounds baseImage) = true ->
      let tx := x - X (Min (Bounds baseImage)) in
      let ty := y - Y (Min (Bounds baseImage)) in
      RGBA_pixel result x y =
        if Point_In tx ty (Bounds textImage)
        then over_pixel (RGBA_pixel copy x y) (At textImage tx ty) (maskAlpha env w * 257)
        else RGBA_pixel copy x y.
Proof.
  intros Htext Hcopy Hdx Hdy.
  pose proof (copyBase_wf _ _ Hcopy) as [Hcwf HcR].
  eexists. split; [by apply CreateWatermarkedImage_steps|].
  intros x y Hin tx ty.
  destruct (DrawMask_text_pixels copy textImage (maskAlpha env w) x y Hcwf)
    as (covered & Hcov & Hpix); [by rewrite HcR|].
  rewrite Hpix, Hcov by (by rewrite HcR). unfold tx, ty. by rewrite HcR.
Qed.

Lemma CreateWatermarkedImage_blends_uniformly_witness :
  exists result,
    CreateWatermarkedImage (demoEnv demoFiles) demoTextWatermark (square 2) = Ok result /\
    maskAlpha (demoEnv demoFiles) demoTextWatermark = 153 /\
    RGBA_pixel result 1 1 = (102, 0, 153, 255).
Proof.
  destruct (copyBase (square 2)) as [copy|e] eqn:Hcopy; [|vm_compute in Hcopy; discriminate Hcopy].
  destruct (CreateWatermarkedImage_blends_uniformly (demoEnv demoFiles) demoTextWatermark
              (square 2) (plain (Rect_ 0 0 2 2) blue) copy) as (result & Hres & Hpix).
  - reflexivity.
  - exact Hcopy.
  - vm_compute. discriminate.
  - vm_compute. discriminate.
  - exists result. split; [exact Hres|]. split; [reflexivity|].
    rewrite (Hpix 1 1 eq_refl).
    vm_compute in Hcopy. injection Hcopy as <-.
    reflexivity.
Defined.

(** X7.  Where the text layer is fully transparent, and where it does not
    reach, [CreateWatermarkedImage] leaves the bytes of the base copy as
    they are, for every opacity. *)
Theorem CreateWatermarkedImage_keeps_base_outside_text (env : Env) (w : TextWatermark)
    (baseImage : Image) (textImage : Image) (copy result : RGBA) (x y : Z) :
  CreateImage env w (of_Z (Dx (Bounds baseImage))) (of_Z (Dy (Bounds baseImage)))
    = Ok textImage ->
  copyBase baseImage = Ok copy ->
  CreateWatermarkedImage env w baseImage = Ok result ->
  Point_In x y (Bounds baseImage) = true ->
  let tx := x - X (Min (Bounds baseImage)) in
  let ty := y - Y (Min (Bounds baseImage)) in
  At textImage tx ty = Color_ 0 0 0 0 \/ Point_In tx ty (Bounds textImage) = false ->
  RGBA_pixel result x y = RGBA_pixel copy x y.
Proof.
  intros Htext Hcopy Hres Hin tx ty Hclear.
  rewrite (CreateWatermarkedImage_steps env w baseImage textImage copy) in Hres by done.
  injection Hres as <-.
  pose proof (copyBase_wf _ _ Hcopy) as [Hcwf HcR].
  destruct (DrawMask_spec copy (Rect copy) textImage ZP
              (Some (Uniform (color_Alpha (maskAlpha env w)))) ZP Hcwf) as (_ & _ & Hpix).
  rewrite Hpix by (by rewrite HcR).
  destruct (drawn _ _ _ _ _ _ _ _) eqn:Hd; [|done].
  unfold blend. cbn [X Y ZP]. rewrite HcR.
  replace (0 + x - X (Min (Bounds baseImage))) with tx by (unfold tx; lia).
  replace (0 + y - Y (Min (Bounds baseImage))) with ty by (unfold ty; lia).
  destruct Hclear as [-> | Hout].
  - destruct (RGBA_pixel_is_byte copy x y (wf_bytes _ Hcwf)) as (? & ? & ? & ?).
    by apply over_pixel_transparent.
  - exfalso. unfold drawn in Hd. rewrite !andb_true_iff in Hd.
    destruct Hd as [[_ Hd] _]. rewrite HcR in Hd.
    apply Point_In_spec in Hd. apply Point_In_false in Hout. apply Hout.
    revert Hd. unfold tx, ty, Rect_Add, Point_Sub. cbn [Min Max Point_Add X Y ZP]. lia.
Qed.

(** A text layer with one opaque blue pixel at (0, 0) and nothing else. *)
Lemma CreateWatermarkedImage_keeps_base_outside_text_witness :
  exists result,
    CreateWatermarkedImage (dotEnv) demoTextWatermark (square 2) = Ok result /\
    RGBA_pixel result 1 1 = RGBAModel red /\
    RGBA_pixel result 0 0 = (102, 0, 153, 255).
Proof.
  destruct (CreateWatermarkedImage dotEnv demoTextWatermark (square 2))
    as [result|e] eqn:E; [|vm_compute in E; discriminate E].
  destruct (copyBase (square 2)) as [copy|e] eqn:Ec; [|vm_compute in Ec; discriminate Ec].
  exists result. split; [reflexivity|]. split.
  - rewrite (CreateWatermarkedImage_keeps_base_outside_text dotEnv demoTextWatermark
               (square 2) dotLayer copy result 1 1 eq_refl Ec E eq_refl (or_introl eq_refl)).
    vm_compute in Ec. injection Ec as <-. reflexivity.
  - vm_compute in E. injection E as <-. reflexivity.
Defined.

(** X8.  If the base image is opaque (and its bounds start at the origin),
    every pixel of the image returned by [CreateWatermarkedImage] is opaque
    too, whatever the text, its colour and the opacity. *)
Theorem CreateWatermarkedImage_keeps_opaque (env : Env) (w : TextWatermark)
    (baseImage : Image) (textImage : Image) (result : RGBA) (x y : Z) :
  Image_wf baseImage -> Min (Bounds baseImage) = ZP -> opaque baseImage ->
  CreateImage env w (of_Z (Dx (Bounds baseImage))) (of_Z (Dy (Bounds baseImage)))
    = Ok textImage ->
  Image_wf textImage ->
  CreateWatermarkedImage env w baseImage = Ok result ->
  Point_In x y (Bounds baseImage) = true ->
  pixel_alpha (RGBA_pixel result x y) = 255.
Proof.
  intros Hwf Hmin Hop Htext Htwf Hres Hin.
  destruct (copyBase_Ok baseImage (CreateWatermarkedImage_allocatable _ _ _ _ Hres)) as [copy Hcopy].
  pose proof (copyBase_wf _ _ Hcopy) as [Hcwf HcR].
  pose proof (copyBase_origin _ _ Hwf Hmin Hcopy) as (_ & _ & _ & Hpix).
  assert (Hc : pixel_alpha (RGBA_pixel copy x y) = 255).
  { rewrite Hpix by done. unfold RGBAModel. simpl. by rewrite Hop. }
  rewrite (CreateWatermarkedImage_steps env w baseImage textImage copy) in Hres by done.
  injection Hres as <-.
  destruct (DrawMask_spec copy (Rect copy) textImage ZP
              (Some (Uniform (color_Alpha (maskAlpha env w)))) ZP Hcwf) as (_ & _ & Hp).
  rewrite Hp by (by rewrite HcR).
  destruct (drawn _ _ _ _ _ _ _ _); [|done].
  apply pixel_alpha_over_pixel; [done|apply Htwf|].
  cbn [At Uniform color_Alpha cA]. pose proof (maskAlpha_range env w). lia.
Qed.

Lemma CreateWatermarkedImage_keeps_opaque_witness :
  exists result,
    CreateWatermarkedImage (demoEnv demoFiles) demoTextWatermark (square 2) = Ok result /\
    pixel_alpha (RGBA_pixel result 1 0) = 255.
Proof.
  destruct (CreateWatermarkedImage (demoEnv demoFiles) demoTextWatermark (square 2))
    as [result|e] eqn:E; [|vm_compute in E; discriminate E].
  exists result. split; [reflexivity|].
  apply (CreateWatermarkedImage_keeps_opaque (demoEnv demoFiles) demoTextWatermark
           (square 2) (plain (Rect_ 0 0 2 2) blue) result 1 0).
  - exact Image_wf_square.
  - reflexivity.
  - intros u v. reflexivity.
  - reflexivity.
  - apply Image_wf_plain.
    + unfold Rectangle_wf. simpl. lia.
    + apply Color_wf_color_RGBA; unfold is_byte; lia.
  - exact E.
  - reflexivity.
Defined.

(* ===================================================================== *)
(** * Integers through float64                                            *)
(* ===================================================================== *)

Lemma digits2_pos_size (p : positive) : digits2_pos p = Pos.size p.
Proof. induction p as [p IH|p IH|]; simpl; congruence. Qed.

Lemma iter_xO_value (p k : positive) :
  Z.pos (Pos.iter xO p k) = Z.pos p * 2 ^ Z.pos k.
Proof.
  induction k as [|k IH] using Pos.peano_ind.
  - simpl. lia.
  - rewrite Pos.iter_succ, Pos2Z.inj_xO, IH, Pos2Z.inj_succ, Z.pow_succ_r by lia. lia.
Qed.

Lemma iter_xO_digits (p k : positive) :
  digits2_pos (Pos.iter xO p k) = (digits2_pos p + k)%positive.
Proof.
  induction k as [|k IH] using Pos.peano_ind.
  - simpl. lia.
  - rewrite Pos.iter_succ. simpl. rewrite IH. lia.
Qed.

Lemma digits2_pos_le_53 (p : positive) :
  Z.pos p < 2 ^ 53 -> Z.pos (digits2_pos p) <= 53.
Proof.
  intros H. rewrite digits2_pos_size.
  pose proof (Pos.size_le p) as Hle.
  destruct (Z_le_gt_dec (Z.pos (Pos.size p)) 53) as [|Hgt]; [done|exfalso].
  assert (H54 : 2 ^ 54 <= 2 ^ Z.pos (Pos.size p)) by (apply Z.pow_le_mono_r; lia).
  assert (Hz : 2 ^ Z.pos (Pos.size p) <= 2 * Z.pos p).
  { rewrite <- (Pos2Z.inj_pow 2 (Pos.size p)). lia. }
  lia.
Qed.

(** A float64 whose mantissa has 53 bits and whose exponent is between -52
    and 0 is left as it is by the rounding step. *)
Lemma binary_round_aux_exact (m : positive) (e : Z) :
  Z.pos (digits2_pos m) = 53 -> -52 <= e <= 0 ->
  binary_round_aux prec emax false (Z.pos m) e loc_Exact = S754_finite false m e.
Proof.
  intros Hd He. unfold binary_round_aux.
  assert (Hs : shr_fexp prec emax (Z.pos m) e loc_Exact
               = ({| shr_m := Z.pos m; shr_r := false; shr_s := false |}, e)).
  { unfold shr_fexp, shr. cbn [Zdigits2 shr_record_of_loc]. rewrite Hd.
    unfold fexp, SpecFloat.emin, prec, emax.
    replace (Z.max (53 + e - 53) (3 - 1024 - 53) - e) with 0 by lia. reflexivity. }
  rewrite Hs. cbn [shr_m loc_of_shr_record round_nearest_even]. rewrite Hs.
  cbn [shr_m]. unfold prec, emax.
  destruct (e <=? 1024 - 53) eqn:E; [reflexivity|lia].
Qed.

(** Every integer from 0 up to 2^53 survives [int(float64(n))]. *)
Lemma float_to_int_of_Z (env : Env) (n : Z) :
  0 <= n < 2 ^ 53 -> float_to_int env (of_Z n) = n.
Proof.
  intros Hn. destruct n as [|p|p]; [reflexivity| |lia].
  pose proof (digits2_pos_le_53 p (proj2 Hn)) as Hd.
  unfold of_Z, binary_normalize, binary_round.
  set (d := Z.pos (digits2_pos p)) in *.
  assert (Hfexp : fexp prec emax (d + 0) = d - 53).
  { unfold fexp, SpecFloat.emin, prec, emax. lia. }
  rewrite Hfexp. unfold shl_align.
  destruct (d - 53 - 0) as [|k|k] eqn:Ek; [|lia|].
  - rewrite binary_round_aux_exact by (fold d; lia).
    unfold float_to_int, trunc. cbn [cond_Zopp]. rewrite Z.shiftl_0_r.
    destruct ((- 2 ^ 63 <=? Z.pos p) && (Z.pos p <? 2 ^ 63)) eqn:E; [reflexivity|lia].
  - rewrite binary_round_aux_exact.
    + unfold float_to_int, trunc. cbn [cond_Zopp].
      rewrite Z.shiftl_div_pow2 by lia. rewrite iter_xO_value.
      replace (- (d - 53)) with (Z.pos k) by lia.
      rewrite Z.div_mul by lia.
      destruct ((- 2 ^ 63 <=? Z.pos p) && (Z.pos p <? 2 ^ 63)) eqn:E; [reflexivity|lia].
    + rewrite iter_xO_digits. fold d. lia.
    + lia.
Qed.

(** X9.  The text layer is rendered on a canvas of exactly the base
    image's width and height: for every size below 2^53 the conversions
    [float64(Dx)] and [int(width)] give the integer back, so the canvas of
    [gg.NewContext] is [image.Rect(0, 0, Dx, Dy)]; when that canvas is
    allocated and the font loads, the result is what [gg] draws on it,
    with the text anchored at ([width]/2, [height]/2) and the same point as
    the centre of rotation. *)
Theorem CreateImage_canvas_has_base_size (env : Env) (t : TextWatermark)
    (baseImage : Image) (dc : RGBA) (face : FontFace env) :
  0 <= Dx (Bounds baseImage) < 2 ^ 53 -> 0 <= Dy (Bounds baseImage) < 2 ^ 53 ->
  NewRGBA (Rect_ 0 0 (Dx (Bounds baseImage)) (Dy (Bounds baseImage))) = Ok dc ->
  gg_LoadFontFace env (Font (TextWatermark_Base t)) (Size (TextWatermark_Base t)) = Some face ->
  let width := of_Z (Dx (Bounds baseImage)) in
  let height := of_Z (Dy (Bounds baseImage)) in
  canvasBounds env width height
    = Rectangle_ (Pt 0 0) (Pt (Dx (Bounds baseImage)) (Dy (Bounds baseImage))) /\
  CreateImage env t width height =
    orRuntimePanic
      (gg_DrawStringAnchored env (Dx (Bounds baseImage)) (Dy (Bounds baseImage))
         (Color (TextWatermark_Base t)) face
         (CreateImage_angle t) (div width f_2) (div height f_2)
         (Text t) (div width f_2) (div height f_2) f_0_5 f_0_5).
Proof.
  intros Hx Hy Hdc Hfont width height.
  assert (Ec : canvasBounds env width height
               = Rect_ 0 0 (Dx (Bounds baseImage)) (Dy (Bounds baseImage))).
  { unfold canvasBounds, width, height. by rewrite !float_to_int_of_Z. }
  split.
  - rewrite Ec. unfold Rect_.
    replace (Dx (Bounds baseImage) <? 0) with false by lia.
    replace (Dy (Bounds baseImage) <? 0) with false by lia. reflexivity.
  - unfold CreateImage. rewrite Ec, Hdc. step_bind. rewrite Hfont. step_bind.
    unfold width, height. by rewrite !float_to_int_of_Z.
Qed.

Lemma CreateImage_canvas_has_base_size_witness :
  canvasBounds (demoEnv demoFiles) (of_Z 4) (of_Z 4) = Rectangle_ (Pt 0 0) (Pt 4 4) /\
  CreateImage (demoEnv demoFiles) demoTextWatermark (of_Z 4) (of_Z 4)
    = Ok (plain (Rect_ 0 0 4 4) blue).
Proof.
  apply (CreateImage_canvas_has_base_size (demoEnv demoFiles) demoTextWatermark
           (square 4) (RGBA_ (replicate 64 0) 16 (Rect_ 0 0 4 4)) tt).
  - vm_compute. split; [discriminate|reflexivity].
  - vm_compute. split; [discriminate|reflexivity].
  - reflexivity.
  - reflexivity.
Defined.

(* ===================================================================== *)
(** * The sign of the rotation angle                                      *)
(* ===================================================================== *)

Lemma shr_1_nonneg mrs : 0 <= shr_m mrs -> 0 <= shr_m (shr_1 mrs).
Proof.
  destruct mrs as [m r s]. simpl. destruct m as [|p|p]; [done| |lia].
  intros _. destruct p; simpl; lia.
Qed.

Lemma iter_pos_shr_1_nonneg p mrs :
  0 <= shr_m mrs -> 0 <= shr_m (SpecFloat.iter_pos shr_1 p mrs).
Proof.
  revert mrs. induction p as [p IH|p IH|]; intros mrs H; simpl.
  - apply IH, IH. by apply shr_1_nonneg.
  - by apply IH, IH.
  - by apply shr_1_nonneg.
Qed.

Lemma shr_fexp_nonneg m e l :
  0 <= m -> 0 <= shr_m (fst (shr_fexp prec emax m e l)).
Proof.
  intros H. unfold shr_fexp, shr.
  assert (H0 : 0 <= shr_m (shr_record_of_loc m l)).
  { destruct l as [|[]]; simpl; done. }
  destruct (fexp prec emax (Zdigits2 m + e) - e) as [|p|p]; simpl; try done.
  by apply iter_pos_shr_1_nonneg.
Qed.

(** Rounding keeps the sign it is given. *)
Lemma binary_round_aux_signbit sx mx ex lx :
  0 <= mx -> signbit (binary_round_aux prec emax sx mx ex lx) = Some sx.
Proof.
  intros H. unfold binary_round_aux.
  pose proof (shr_fexp_nonneg mx ex lx H) as H1.
  destruct (shr_fexp prec emax mx ex lx) as [mrs' e']. simpl in H1.
  assert (H2 : 0 <= round_nearest_even (shr_m mrs') (loc_of_shr_record mrs')).
  { unfold round_nearest_even. destruct (loc_of_shr_record mrs') as [|[]]; try lia.
    destruct (Z.even (shr_m mrs')); lia. }
  pose proof (shr_fexp_nonneg _ e' loc_Exact H2) as H3.
  destruct (shr_fexp prec emax _ e' loc_Exact) as [mrs'' e'']. simpl in H3.
  destruct (shr_m mrs'') as [|p|p]; [done| |lia].
  by destruct (e'' <=? emax - prec).
Qed.

(** X10.  The angle of [CreateImage] always has the sign opposite to
    [Rotate], also when the product is rounded to zero or overflows, and
    it is NaN only for a NaN rotation; a rotation of zero gives an angle of
    zero. *)
Theorem CreateImage_angle_sign (t : TextWatermark) :
  signbit (CreateImage_angle t) = negb <$> signbit (Rotate (TextWatermark_Base t)) /\
  (eqb (Rotate (TextWatermark_Base t)) f_0 = true -> eqb (CreateImage_angle t) f_0 = true).
Proof.
  unfold CreateImage_angle. rewrite deg2rad_value.
  destruct (Rotate (TextWatermark_Base t)) as [s|s| |s m e]; simpl.
  - split; [by destruct s|by destruct s].
  - split; [by destruct s|by destruct s].
  - done.
  - split; [|by destruct s].
    unfold mul. cbn [SFmul]. rewrite binary_round_aux_signbit by lia.
    by destruct s.
Qed.

Lemma CreateImage_angle_sign_witness :
  eqb (CreateImage_angle (TextWatermark_ style0 "")) f_0 = true.
Proof.
  apply (CreateImage_angle_sign (TextWatermark_ style0 "")). reflexivity.
Defined.

(* ===================================================================== *)
(** * Responses of the handler                                            *)
(* ===================================================================== *)

Lemma append_assoc (s1 s2 s3 : string) : (s1 +:+ s2) +:+ s3 = s1 +:+ (s2 +:+ s3).
Proof.
  induction s1 as [|a s1 IH]; [reflexivity|].
  change (String a ((s1 +:+ s2) +:+ s3) = String a (s1 +:+ (s2 +:+ s3))). by f_equal.
Qed.

Lemma append_empty_r (s : string) : s +:+ "" = s.
Proof.
  induction s as [|a s IH]; [reflexivity|].
  change (String a (s +:+ "") = String a s). by f_equal.
Qed.

Lemma body_foldl_Write chunks w :
  body (foldl (fun w chunk => Write chunk w) w chunks) = body w +:+ concatChunks chunks.
Proof.
  revert w. induction chunks as [|c chunks IH]; intros w; simpl.
  - by rewrite append_empty_r.
  - rewrite IH.
    assert (Hb : body (Write c w) = body w +:+ c)
      by (unfold Write, WriteHeader; by destruct (sent w)).
    rewrite Hb, append_assoc. reflexivity.
Qed.

Lemma Header_foldl_Write chunks w :
  Header (foldl (fun w chunk => Write chunk w) w chunks) = Header w.
Proof.
  revert w. induction chunks as [|c chunks IH]; intros w; simpl; [done|].
  rewrite IH. unfold Write, WriteHeader. by destruct (sent w).
Qed.

Lemma ApplyToImage_panic_kinds (env : Env) (w : Watermark) (baseImage : Image) (e : Failure) :
  ApplyToImage env w baseImage = Panic e ->
  (exists msg, e = RuntimePanic msg) \/
  e = ResourceNotFound (Path w) \/ e = DecodeFailure (Path w).
Proof.
  unfold ApplyToImage.
  destruct (NewRGBA (Bounds baseImage)) as [p0|e0] eqn:E.
  2:{ intros [= <-]. left. by apply NewRGBA_panic_kinds in E. }
  step_bind. destruct (negb (String.eqb (Path w) "")); [|discriminate].
  destruct (os_Open env (Path w)) as [file|]; [|intros [= <-]; right; by left].
  step_bind.
  destruct (png_Decode env file) as [wm0|]; [discriminate|intros [= <-]; right; by right].
Qed.

Lemma CreateWatermarkedImage_panic_kinds (env : Env) (w : TextWatermark)
    (baseImage : Image) (e : Failure) :
  CreateWatermarkedImage env w baseImage = Panic e ->
  (exists msg, e = RuntimePanic msg) \/ e = FontLoadFailure (Font (TextWatermark_Base w)).
Proof.
  unfold CreateWatermarkedImage, CreateImage.
  destruct (NewRGBA (canvasBounds env _ _)) as [dc|e0] eqn:Ec.
  2:{ intros [= <-]. left. by apply NewRGBA_panic_kinds in Ec. }
  step_bind.
  destruct (gg_LoadFontFace env _ _) as [face|]; [|intros [= <-]; by right]. step_bind.
  destruct (gg_DrawStringAnchored env _ _ _ _ _ _ _ _ _ _ _ _) as [textImage|msg];
    [|intros [= <-]; left; eauto].
  cbn [orRuntimePanic]. step_bind.
  destruct (NewRGBA (Bounds baseImage)) as [p0|e0] eqn:E.
  2:{ intros [= <-]. left. by apply NewRGBA_panic_kinds in E. }
  discriminate.
Qed.


(** X12.  When both pictures are produced and the template loads and
    executes without error, the handler answers with status 200, the
    content type [text/html; charset=utf-8], and a body that is exactly
    what the template wrote; the template is given the two base64 texts. *)
Theorem handleWatermarkedImages_success (env : Env) (images : string * string)
    (tmpl : Template env) (chunks : list string) :
  watermarkedImages env = Ok images ->
  template_ParseFiles env "templates/images.html" = Some tmpl ->
  template_Execute env tmpl (fst images) (snd images) = (chunks, false) ->
  exists w',
    handleWatermarkedImages env newResponse = Ok w' /\
    status w' = 200 /\
    body w' = concatChunks chunks /\
    Header w' !! "Content-Type" = Some "text/html; charset=utf-8" /\
    (chunks <> [] ->
     sent w' = Some (200, {["Content-Type" := "text/html; charset=utf-8"]})).
Proof.
  intros Himg Hparse Hexec. rewrite handleWatermarkedImages_stages, Himg. step_bind.
  unfold renderTemplate. rewrite Hparse, Hexec. eexists. split; [reflexivity|].
  set (w0 := Header_Set "Content-Type" "text/html; charset=utf-8" newResponse).
  assert (Hsent : chunks <> [] ->
            sent (foldl (fun w chunk => Write chunk w) w0 chunks)
            = Some (200, {["Content-Type" := "text/html; charset=utf-8"]})).
  { destruct chunks as [|c chunks]; [done|]. intros _. cbn [foldl].
    apply sent_foldl_Write. rewrite sent_Write_fresh by done. reflexivity. }
  split; [|split; [|split; [|exact Hsent]]].
  - unfold status. destruct chunks as [|c chunks]; [reflexivity|].
    by rewrite Hsent.
  - by rewrite body_foldl_Write.
  - rewrite Header_foldl_Write. unfold w0, Header_Set, newResponse. cbn [Header].
    apply lookup_insert_eq.
Qed.

Lemma watermarkedImages_demo :
  watermarkedImages (demoEnv demoFiles) = Ok ("/9j/", "/9j/").
Proof. vm_compute. reflexivity. Qed.

Lemma handleWatermarkedImages_success_witness :
  exists w',
    handleWatermarkedImages (demoEnv demoFiles) newResponse = Ok w' /\
    status w' = 200 /\
    body w' = "/9j//9j/" /\
    Header w' !! "Content-Type" = Some "text/html; charset=utf-8" /\
    (["/9j/"; "/9j/"] <> [] ->
     sent w' = Some (200, {["Content-Type" := "text/html; charset=utf-8"]})).
Proof.
  apply (handleWatermarkedImages_success (demoEnv demoFiles) ("/9j/", "/9j/") tt
           ["/9j/"; "/9j/"]).
  - exact watermarkedImages_demo.
  - reflexivity.
  - reflexivity.
Defined.

(** X13.  When the template cannot be loaded, or its execution fails
    before it wrote anything, the response has status 500, the content
    type [text/plain; charset=utf-8] with [nosniff], and a body that is the
    fixed message alone: nothing of the pictures or of the error. *)
Theorem handleWatermarkedImages_template_failure_500 (env : Env) (images : string * string) :
  watermarkedImages env = Ok images ->
  (template_ParseFiles env "templates/images.html" = None \/
   exists tmpl, template_ParseFiles env "templates/images.html" = Some tmpl /\
                template_Execute env tmpl (fst images) (snd images) = ([], true)) ->
  exists w' hdr,
    handleWatermarkedImages env newResponse = Ok w' /\
    sent w' = Some (500, hdr) /\
    hdr !! "Content-Type" = Some "text/plain; charset=utf-8" /\
    hdr !! "X-Content-Type-Options" = Some "nosniff" /\
    (body w' = "Error loading template" +:+ newline \/
     body w' = "Error executing template" +:+ newline).
Proof.
  intros Himg Hcase. rewrite handleWatermarkedImages_stages, Himg. step_bind.
  unfold renderTemplate.
  destruct Hcase as [Hparse|(tmpl & Hparse & Hexec)].
  - rewrite Hparse. eexists. eexists. split; [reflexivity|].
    split; [reflexivity|]. split; [|split; [|by left]]; vm_compute; reflexivity.
  - rewrite Hparse, Hexec. eexists. eexists. split; [reflexivity|].
    split; [reflexivity|]. split; [|split; [|by right]]; vm_compute; reflexivity.
Qed.

(** The demo environment without a template. *)
Lemma handleWatermarkedImages_template_failure_500_witness :
  exists w' hdr,
    handleWatermarkedImages noTemplateEnv newResponse = Ok w' /\
    sent w' = Some (500, hdr) /\
    hdr !! "Content-Type" = Some "text/plain; charset=utf-8" /\
    hdr !! "X-Content-Type-Options" = Some "nosniff" /\
    (body w' = "Error loading template" +:+ newline \/
     body w' = "Error executing template" +:+ newline).
Proof.
  apply (handleWatermarkedImages_template_failure_500 noTemplateEnv ("/9j/", "/9j/")).
  - vm_compute. reflexivity.
  - left. reflexivity.
Defined.

(** X14.  An error of [jpeg.Encode] never shows in the response: two
    environments whose JPEG encoders write the same bytes give the same
    outcome of the handler, whatever errors the encoders return. *)
Theorem handleWatermarkedImages_ignores_encode_errors (env : Env)
    (f : Image -> list Z * bool) (w : ResponseWriter) :
  (forall img, fst (f img) = fst (jpeg_Encode env img)) ->
  handleWatermarkedImages (with_jpeg_Encode env f) w = handleWatermarkedImages env w.
Proof.
  intros Hf. rewrite !handleWatermarkedImages_stages.
  assert (Himg : watermarkedImages (with_jpeg_Encode env f) = watermarkedImages env).
  { unfold watermarkedImages.
    change (os_Open (with_jpeg_Encode env f)) with (os_Open env).
    destruct (os_Open env "image.jpg") as [f1|]; [|done]. step_bind.
    change (image_Decode (with_jpeg_Encode env f) f1) with (image_Decode env f1).
    destruct (image_Decode env f1) as [b1|]; [|done]. step_bind.
    match goal with |- context [ApplyToImage (with_jpeg_Encode env f) ?wm b1] =>
      change (ApplyToImage (with_jpeg_Encode env f) wm b1) with (ApplyToImage env wm b1);
      destruct (ApplyToImage env wm b1) as [r1|]; [|done] end.
    step_bind.
    destruct (os_Open env "zerkalo-ozera.jpg") as [f2|]; [|done]. step_bind.
    change (image_Decode (with_jpeg_Encode env f) f2) with (image_Decode env f2).
    destruct (image_Decode env f2) as [b2|]; [|done]. step_bind.
    match goal with |- context [CreateWatermarkedImage (with_jpeg_Encode env f) ?t b2] =>
      change (CreateWatermarkedImage (with_jpeg_Encode env f) t b2)
        with (CreateWatermarkedImage env t b2);
      destruct (CreateWatermarkedImage env t b2) as [r2|]; [|done] end.
    step_bind. unfold encodeImageToBase64. cbn [jpeg_Encode with_jpeg_Encode String.eqb].
    by rewrite !Hf. }
  rewrite Himg. reflexivity.
Qed.

Lemma handleWatermarkedImages_ignores_encode_errors_witness :
  handleWatermarkedImages
    (with_jpeg_Encode (demoEnv demoFiles) (fun _ => ([255; 216; 255], true))) newResponse
  = handleWatermarkedImages (demoEnv demoFiles) newResponse.
Proof.
  apply (handleWatermarkedImages_ignores_encode_errors (demoEnv demoFiles)
           (fun _ => ([255; 216; 255], true)) newResponse).
  intros img. reflexivity.
Defined.

(* ===================================================================== *)
(** * Watermarks that change nothing                                      *)
(* ===================================================================== *)

(** X15.  For a well-formed base image whose bounds start at the origin, an
    empty path makes [ApplyToImage] return a copy of the base image as soon
    as [image.NewRGBA] returns the buffer for it, and the same one in every
    environment: no file is opened, nothing is decoded or resized. *)
Theorem ApplyToImage_empty_path_copies (env : Env) (w : Watermark) (baseImage : Image)
    (buf : RGBA) :
  Path w = "" -> Image_wf baseImage -> Min (Bounds baseImage) = ZP ->
  NewRGBA (Bounds baseImage) = Ok buf ->
  exists result,
    (forall env', ApplyToImage env' w baseImage = Ok result) /\
    RGBA_copy_of result baseImage.
Proof.
  intros HP Hwf Hmin Hbuf.
  destruct (copyBase_Ok baseImage (NewRGBA_allocatable _ _ Hbuf)) as [p Hp].
  exists p. split; [intros env'; by rewrite ApplyToImage_empty_path|].
  by apply copyBase_origin.
Qed.

Lemma ApplyToImage_empty_path_copies_witness :
  exists result,
    (forall env', ApplyToImage env' noWatermark (square 2) = Ok result) /\
    RGBA_copy_of result (square 2).
Proof.
  apply (ApplyToImage_empty_path_copies bareEnv noWatermark (square 2)
           (RGBA_ (replicate 16 0) 8 (Rect_ 0 0 2 2))).
  - reflexivity.
  - exact Image_wf_square.
  - reflexivity.
  - reflexivity.
Defined.

(** X16.  The two functions compose: on the image that [ApplyToImage]
    returned for a base with bounds at the origin, a watermark with an
    empty path, and a text watermark of opacity 0 whose text layer
    [CreateImage] returns (the font loads, the canvas is allocated), both
    return that image again, equal in every byte. *)
Theorem watermarks_without_effect_compose (env : Env) (w w0 : Watermark)
    (t : TextWatermark) (baseImage : Image) (result : RGBA) (textImage : Image) :
  Min (Bounds baseImage) = ZP ->
  ApplyToImage env w baseImage = Ok result ->
  Path w0 = "" ->
  eqb (Opacity (TextWatermark_Base t)) f_0 = true ->
  CreateImage env t (of_Z (Dx (Rect result))) (of_Z (Dy (Rect result))) = Ok textImage ->
  ApplyToImage env w0 (Image_of_RGBA result) = Ok result /\
  CreateWatermarkedImage env t (Image_of_RGBA result) = Ok result.
Proof.
  intros Hmin Hres HP H0 Htext.
  pose proof (ApplyToImage_allocatable _ _ _ _ Hres) as Ha.
  apply ApplyToImage_wf in Hres as [Hwf HR].
  assert (Hm : Min (Rect result) = ZP) by congruence.
  rewrite <- HR in Ha.
  split.
  - by apply ApplyToImage_empty_path_RGBA.
  - by apply (opacity0_returns_RGBA_unchanged env t result textImage).
Qed.

Lemma watermarks_without_effect_compose_witness :
  exists result,
    ApplyToImage (demoEnv demoFiles) logo (square 4) = Ok result /\
    ApplyToImage (demoEnv demoFiles) noWatermark (Image_of_RGBA result) = Ok result /\
    CreateWatermarkedImage (demoEnv demoFiles) invisibleText (Image_of_RGBA result) = Ok result.
Proof.
  destruct (ApplyToImage (demoEnv demoFiles) logo (square 4)) as [result|e] eqn:E;
    [|vm_compute in E; discriminate E].
  exists result. split; [reflexivity|].
  apply (watermarks_without_effect_compose (demoEnv demoFiles) logo noWatermark
           invisibleText (square 4) result (plain (Rect_ 0 0 4 4) blue)).
  - reflexivity.
  - exact E.
  - reflexivity.
  - reflexivity.
  - apply ApplyToImage_Rect in E. rewrite E. reflexivity.
Defined.

(* ===================================================================== *)
(** * The base64 text                                                     *)
(* ===================================================================== *)

(** Induction over a byte list three bytes at a time, as the encoder
    reads it. *)
Lemma list_ind3 (P : list Z -> Prop) :
  P [] -> (forall a, P [a]) -> (forall a b, P [a; b]) ->
  (forall a b c l, P l -> P (a :: b :: c :: l)) ->
  forall l, P l.
Proof.
  intros H0 H1 H2 H3 l.
  assert (H : P l /\ (forall a, P (a :: l)) /\ (forall a b, P (a :: b :: l))).
  { induction l as [|x l (IH0 & IH1 & IH2)]; [done|].
    split; [apply IH1|]. split; [intros a; apply IH2|]. intros a b. by apply H3. }
  apply H.
Qed.

Lemma EncodeToString_length (src : list Z) :
  String.length (EncodeToString src) = (4 * ((length src + 2) / 3))%nat.
Proof.
  induction src as [|a|a b|a b c l IH] using list_ind3; try reflexivity.
  cbn [EncodeToString String.length length]. rewrite IH.
  replace (S (S (S (length l))) + 2)%nat with (1 * 3 + (length l + 2))%nat by lia.
  rewrite Nat.div_add_l by lia. lia.
Qed.

(** X17.  The text returned by [encodeImageToBase64] has four characters
    for every three bytes written to the buffer, the last group padded:
    its length is [4 * ceil(n / 3)] for [n] buffered bytes. *)
Theorem encodeImageToBase64_length (env : Env) (img : Image) (imgType : string) :
  String.length (encodeImageToBase64 env img imgType)
  = (4 * ((length (encodeBuffer env img imgType) + 2) / 3))%nat.
Proof. rewrite encodeImageToBase64_buffer. apply EncodeToString_length. Qed.

Lemma land_63 (v : Z) : Z.land v 63 = v mod 64.
Proof. change 63 with (Z.ones 6). rewrite Z.land_ones by lia. reflexivity. Qed.

Lemma b64_nth (v : Z) : b64 v = nth (Z.to_nat (v mod 64)) encodeStd "="%char.
Proof. unfold b64. by rewrite land_63. Qed.

Lemma b64_table :
  forallb (fun i => match b64_index (nth i encodeStd "="%char) with
                    | Some j => (j =? Z.of_nat i) && b64_safe (nth i encodeStd "="%char)
                    | None => false
                    end) (seq 0 64) = true.
Proof. vm_compute. reflexivity. Qed.

Lemma b64_facts (v : Z) : b64_index (b64 v) = Some (v mod 64) /\ b64_safe (b64 v) = true.
Proof.
  rewrite b64_nth. pose proof (Z.mod_pos_bound v 64 ltac:(lia)) as Hv.
  assert (Hin : In (Z.to_nat (v mod 64)) (seq 0 64)) by (apply in_seq; lia).
  pose proof (proj1 (forallb_forall _ _) b64_table _ Hin) as H. cbv beta in H.
  destruct (b64_index _) as [j|]; [|discriminate H].
  apply andb_true_iff in H as [Hj Hs]. split; [f_equal; lia|done].
Qed.

Lemma b64_not_pad (v : Z) : Ascii.eqb (b64 v) "="%char = false.
Proof.
  destruct (Ascii.eqb_spec (b64 v) "="%char) as [E|]; [|done].
  pose proof (proj1 (b64_facts v)) as H. rewrite E in H. vm_compute in H. discriminate H.
Qed.

Lemma EncodeToString_safe (src : list Z) : string_forall b64_safe (EncodeToString src) = true.
Proof.
  induction src as [|a|a b|a b c l IH] using list_ind3;
    cbn [EncodeToString string_forall];
    rewrite ?(proj2 (b64_facts _)), ?IH; reflexivity.
Qed.

(** X18.  Whatever the image, the format tag and the encoder, the text
    returned by [encodeImageToBase64] consists of the 64 characters of the
    base64 alphabet and ['='] only: no quote, angle bracket, ampersand or
    white space that would need escaping in the page. *)
Theorem encodeImageToBase64_alphabet (env : Env) (img : Image) (imgType : string) :
  string_forall b64_safe (encodeImageToBase64 env img imgType) = true.
Proof. rewrite encodeImageToBase64_buffer. apply EncodeToString_safe. Qed.

Lemma lor_high_low (x y n : Z) :
  0 <= n -> 0 <= y < 2 ^ n -> Z.lor (x * 2 ^ n) y = x * 2 ^ n + y.
Proof.
  intros Hn Hy.
  assert (Hl : Z.land (x * 2 ^ n) y = 0).
  { apply Z.bits_inj'. intros k Hk. rewrite Z.land_spec, Z.bits_0.
    destruct (Z_lt_le_dec k n) as [Hlt|Hge].
    - by rewrite Z.mul_pow2_bits_low.
    - destruct (Z.eq_dec y 0) as [->|Hy0]; [by rewrite Z.bits_0, andb_false_r|].
      rewrite (Z.bits_above_log2 y k), andb_false_r; [done|lia|].
      apply Z.log2_lt_pow2; [lia|]. 
      apply Z.lt_le_trans with (2 ^ n); [lia|]. apply Z.pow_le_mono_r; lia. }
  rewrite Z.add_nocarry_lxor by done. by rewrite Z.lxor_lor.
Qed.

Lemma pack3 (a b c : Z) :
  is_byte a -> is_byte b -> is_byte c ->
  Z.lor (Z.lor (Z.shiftl a 16) (Z.shiftl b 8)) c = a * 65536 + b * 256 + c.
Proof.
  unfold is_byte. intros Ha Hb Hc. rewrite !Z.shiftl_mul_pow2 by lia.
  rewrite (lor_high_low a (b * 2 ^ 8) 16) by lia.
  replace (a * 2 ^ 16 + b * 2 ^ 8) with ((a * 256 + b) * 2 ^ 8) by lia.
  rewrite lor_high_low by lia. lia.
Qed.

Lemma pack2 (a b : Z) :
  is_byte a -> is_byte b ->
  Z.lor (Z.shiftl a 16) (Z.shiftl b 8) = a * 65536 + b * 256.
Proof.
  unfold is_byte. intros Ha Hb. rewrite !Z.shiftl_mul_pow2 by lia.
  rewrite (lor_high_low a (b * 2 ^ 8) 16) by lia. lia.
Qed.

Lemma DecodeString_EncodeToString (src : list Z) :
  Forall is_byte src -> DecodeString (EncodeToString src) = Some src.
Proof.
  induction src as [|a|a b|a b c l IH] using list_ind3; intros Hb.
  - reflexivity.
  - apply Forall_cons in Hb as [Ha _]. unfold is_byte in Ha.
    cbn [EncodeToString DecodeString].
    rewrite !(proj1 (b64_facts _)). cbn [Ascii.eqb andb String.eqb].
    change (Ascii.eqb "=" "=") with true. cbn [andb].
    rewrite Z.shiftl_mul_pow2, !Z.shiftr_div_pow2 by lia.
    do 2 f_equal. change (2 ^ 16) with 65536. change (2 ^ 18) with 262144.
    change (2 ^ 12) with 4096. lia.
  - apply Forall_cons in Hb as [Ha Hb]. apply Forall_cons in Hb as [Hb _].
    cbn [EncodeToString DecodeString]. rewrite pack2 by done.
    rewrite !(proj1 (b64_facts _)), b64_not_pad.
    change (Ascii.eqb "=" "=") with true. cbn [String.eqb].
    rewrite !Z.shiftr_div_pow2 by lia. unfold is_byte in *.
    change (2 ^ 18) with 262144. change (2 ^ 12) with 4096. change (2 ^ 6) with 64.
    do 2 f_equal; [lia|]. f_equal. lia.
  - apply Forall_cons in Hb as [Ha Hb]. apply Forall_cons in Hb as [Hb Hc].
    apply Forall_cons in Hc as [Hc Hl].
    cbn [EncodeToString DecodeString]. rewrite pack3 by done.
    rewrite !(proj1 (b64_facts _)), !b64_not_pad, (IH Hl).
    rewrite !Z.shiftr_div_pow2 by lia. unfold is_byte in *.
    change (2 ^ 18) with 262144. change (2 ^ 12) with 4096. change (2 ^ 6) with 64.
    f_equal. f_equal; [lia|]. f_equal; [lia|]. f_equal. lia.
Qed.

(** X19.  The base64 text loses nothing: if two calls of
    [encodeImageToBase64] return the same text, the buffers they encoded
    held the same bytes. *)
Theorem encodeImageToBase64_injective (env1 env2 : Env) (img1 img2 : Image)
    (imgType1 imgType2 : string) :
  Forall is_byte (encodeBuffer env1 img1 imgType1) ->
  Forall is_byte (encodeBuffer env2 img2 imgType2) ->
  encodeImageToBase64 env1 img1 imgType1 = encodeImageToBase64 env2 img2 imgType2 ->
  encodeBuffer env1 img1 imgType1 = encodeBuffer env2 img2 imgType2.
Proof.
  intros H1 H2. rewrite !encodeImageToBase64_buffer. intros E.
  apply (f_equal DecodeString) in E.
  rewrite !DecodeString_EncodeToString in E by done. by injection E.
Qed.

Lemma encodeImageToBase64_injective_witness :
  encodeBuffer (demoEnv demoFiles) (square 2) "jpeg"
  = encodeBuffer (demoEnv demoFiles) (square 4) "jpeg".
Proof.
  apply (encodeImageToBase64_injective (demoEnv demoFiles) (demoEnv demoFiles)
           (square 2) (square 4) "jpeg" "jpeg").
  - repeat constructor; unfold is_byte; lia.
  - repeat constructor; unfold is_byte; lia.
  - reflexivity.
Defined.

(* ===================================================================== *)
(** * Base pictures in other formats                                      *)
(* ===================================================================== *)

(** X20.  The handler reads base pictures in JPEG and PNG only, the two
    formats whose packages [controller.go] imports: when [image.jpg] opens
    but starts with neither signature (a GIF file, an empty file) the
    handler panics with the decoding error of [image.jpg], whatever the
    decoders would make of the bytes. *)
Theorem handleWatermarkedImages_unknown_format (env : Env) (w : ResponseWriter)
    (data : list Z) :
  os_Open env "image.jpg" = Some data ->
  has_prefix jpegMagic data = false -> has_prefix pngHeader data = false ->
  handleWatermarkedImages env w = Panic (DecodeFailure "image.jpg").
Proof.
  intros Hopen Hj Hp. unfold handleWatermarkedImages. rewrite Hopen. step_bind.
  unfold image_Decode. by rewrite Hj, Hp.
Qed.

Lemma handleWatermarkedImages_unknown_format_witness :
  handleWatermarkedImages (demoEnv gifFiles) newResponse = Panic (DecodeFailure "image.jpg").
Proof.
  apply (handleWatermarkedImages_unknown_format (demoEnv gifFiles) newResponse gifFile);
    reflexivity.
Defined.

(* ===================================================================== *)
(** * Which decoder reads which file                                      *)
(* ===================================================================== *)

(** C9.  The watermark file is decoded by [png.Decode] alone: when it opens
    but does not start with the PNG signature (a JPEG file does not),
    [ApplyToImage] returns no image, and once the buffer of the result is
    allocated it panics with the decoding error of that file, even if the
    bytes are a picture that [image.Decode] decodes.  The handler decodes
    its two base images with [image.Decode], which hands JPEG data to the
    JPEG decoder and PNG data to the PNG decoder: the handler panics with
    the decoding error of a base image exactly when [image.Decode] rejects
    that file; its watermark file is subject to [png.Decode]. *)
Theorem ApplyToImage_decodes_png_only (env : Env) :
  (forall w baseImage file,
     Path w <> "" -> os_Open env (Path w) = Some file ->
     has_prefix pngHeader file = false ->
     (forall result, ApplyToImage env w baseImage <> Ok result) /\
     (forall buf, NewRGBA (Bounds baseImage) = Ok buf ->
        ApplyToImage env w baseImage = Panic (DecodeFailure (Path w)))) /\
  (forall data, has_prefix jpegMagic data = true ->
     has_prefix pngHeader data = false /\
     image_Decode env data = jpeg_Decode env data) /\
  (forall data, has_prefix pngHeader data = true ->
     image_Decode env data = png_decode_chunks env data /\
     png_Decode env data = png_decode_chunks env data) /\
  (forall rw,
     (handleWatermarkedImages env rw = Panic (DecodeFailure "image.jpg") <->
      exists f1, os_Open env "image.jpg" = Some f1 /\ image_Decode env f1 = None) /\
     (forall f1 b1 r1 f2,
        os_Open env "image.jpg" = Some f1 -> image_Decode env f1 = Some b1 ->
        ApplyToImage env imageWatermark b1 = Ok r1 ->
        os_Open env "zerkalo-ozera.jpg" = Some f2 ->
        (handleWatermarkedImages env rw = Panic (DecodeFailure "zerkalo-ozera.jpg") <->
         image_Decode env f2 = None)) /\
     (forall f1 b1 buf file,
        os_Open env "image.jpg" = Some f1 -> image_Decode env f1 = Some b1 ->
        NewRGBA (Bounds b1) = Ok buf ->
        os_Open env "FG-copyright-mini.png" = Some file ->
        has_prefix pngHeader file = false ->
        handleWatermarkedImages env rw = Panic (DecodeFailure "FG-copyright-mini.png"))).
Proof.
  assert (Hwm : forall w baseImage file,
     Path w <> "" -> os_Open env (Path w) = Some file ->
     has_prefix pngHeader file = false ->
     (forall result, ApplyToImage env w baseImage <> Ok result) /\
     (forall buf, NewRGBA (Bounds baseImage) = Ok buf ->
        ApplyToImage env w baseImage = Panic (DecodeFailure (Path w)))).
  { intros w baseImage file HP Hopen Hsig.
    assert (Hd : png_Decode env file = None) by (unfold png_Decode; by rewrite Hsig).
    split.
    - intros result. unfold ApplyToImage.
      destruct (NewRGBA (Bounds baseImage)) as [p0|e]; [|discriminate]. step_bind.
      rewrite (eqb_empty_false _ HP), Hopen. cbn [negb]. step_bind. by rewrite Hd.
    - intros buf Hbuf. unfold ApplyToImage. rewrite Hbuf. step_bind.
      rewrite (eqb_empty_false _ HP), Hopen. cbn [negb]. step_bind. by rewrite Hd. }
  split; [exact Hwm|]. split; [|split].
  - intros data Hj. split; [by apply jpeg_is_not_png|].
    unfold image_Decode. by rewrite Hj.
  - intros data Hp. unfold image_Decode, png_Decode. rewrite Hp.
    destruct (has_prefix jpegMagic data) eqn:Hj; [|done].
    apply jpeg_is_not_png in Hj. congruence.
  - intros rw. split; [|split].
    + rewrite handleWatermarkedImages_stages. unfold watermarkedImages. split.
      * destruct (os_Open env "image.jpg") as [f1|]; [|discriminate]. step_bind.
        destruct (image_Decode env f1) as [b1|] eqn:Hd; [|intros _; by exists f1].
        step_bind.
        destruct (ApplyToImage env _ b1) as [r1|e1] eqn:E1.
        2:{ intros [= ->].
            apply ApplyToImage_panic_kinds in E1 as [[msg H]|[H|H]]; discriminate H. }
        step_bind.
        destruct (os_Open env "zerkalo-ozera.jpg") as [f2|]; [|discriminate]. step_bind.
        destruct (image_Decode env f2) as [b2|]; [|discriminate]. step_bind.
        destruct (CreateWatermarkedImage env _ b2) as [r2|e2] eqn:E2; [discriminate|].
        intros [= ->].
        apply CreateWatermarkedImage_panic_kinds in E2 as [[msg H]|H]; discriminate H.
      * intros (f1 & Hopen & Hd). rewrite Hopen. step_bind. by rewrite Hd.
    + intros f1 b1 r1 f2 Ho1 Hd1 Hr1 Ho2.
      rewrite handleWatermarkedImages_stages. unfold watermarkedImages.
      rewrite Ho1. step_bind. rewrite Hd1. step_bind.
      fold imageWatermark. rewrite Hr1. step_bind. rewrite Ho2. step_bind.
      destruct (image_Decode env f2) as [b2|]; [|done]. step_bind.
      destruct (CreateWatermarkedImage env _ b2) as [r2|e2] eqn:E2;
        [split; discriminate|].
      split; [|discriminate]. intros [= ->].
      apply CreateWatermarkedImage_panic_kinds in E2 as [[msg H]|H]; discriminate H.
    + intros f1 b1 buf file Ho1 Hd1 Hbuf Hopen Hsig.
      rewrite handleWatermarkedImages_stages. unfold watermarkedImages.
      rewrite Ho1. step_bind. rewrite Hd1. step_bind. fold imageWatermark.
      destruct (Hwm imageWatermark b1 file) as [_ H]; [discriminate|exact Hopen|exact Hsig|].
      by rewrite (H buf Hbuf).
Qed.

(** A JPEG file as watermark: [image.Decode] reads it, [ApplyToImage]
    panics, and so does the handler when every file is that one; with a
    PNG file in the place of [image.jpg] the handler does not fail on the
    base image. *)
Lemma ApplyToImage_decodes_png_only_witness :
  let env := demoEnv jpegFiles in
  image_Decode env jpegFile = Some (plain (Rect_ 0 0 4 4) red) /\
  ApplyToImage env logo (square 4) = Panic (DecodeFailure "FG-copyright-mini.png") /\
  handleWatermarkedImages env newResponse = Panic (DecodeFailure "FG-copyright-mini.png") /\
  image_Decode (demoEnv pngFiles) pngFile = Some (plain (Rect_ 0 0 2 2) blue) /\
  handleWatermarkedImages (demoEnv pngFiles) newResponse <> Panic (DecodeFailure "image.jpg").
Proof.
  pose proof (ApplyToImage_decodes_png_only (demoEnv jpegFiles)) as (Hwm & _ & _ & Hh).
  pose proof (ApplyToImage_decodes_png_only (demoEnv pngFiles)) as (_ & _ & _ & Hp).
  split; [reflexivity|]. split; [|split; [|split; [reflexivity|]]].
  - destruct (Hwm logo (square 4) jpegFile) as [_ H];
      [discriminate|reflexivity|reflexivity|].
    apply (H (RGBA_ (replicate 64 0) 16 (Rect_ 0 0 4 4))). reflexivity.
  - destruct (Hh newResponse) as (_ & _ & H).
    apply (H jpegFile (plain (Rect_ 0 0 4 4) red)
             (RGBA_ (replicate 64 0) 16 (Rect_ 0 0 4 4)) jpegFile); reflexivity.
  - destruct (Hp newResponse) as (H & _ & _).
    intros E. apply H in E as (f1 & Hopen & Hd).
    injection Hopen as <-. discriminate Hd.
Defined.
